(** * Great-circle bearing lines: a shallow embedding of the [bearings] package

    The package is pure Python over [int] and [float].  Floats are IEEE
    binary64, modelled by Rocq's primitive [float]; Python integers are [Z].
    Exceptions are modelled by an error monad.  The trigonometric functions of
    the [math] module are the platform's C library: they are an interface
    ([Libm]) of which the development is independent. *)

From Stdlib Require Import ZArith Bool List Lia String.
From Stdlib Require Import Floats.
Import ListNotations.

(** ** The Python runtime the package relies on *)

Module Py.

(** Exception classes: the built-in ones the package can raise, the five
    classes of [_errors.py], and [EmptyInputError], which only the
    specification names ([_errors.py] does not define it). *)
Inductive exn : Set :=
| TypeError
| ValueError
| SyntaxError
| ZeroDivisionError
| OverflowError
| UnboundLocalError
| IdenticalInputPointError
| ProbableDivergenceError
| AmbiguousIntersectionError
| InfiniteIntersectionError
| AmbiguousBoxError
| EmptyInputError.

Inductive M (A : Type) : Type :=
| Ok (a : A)
| Raise (e : exn).

Arguments Ok {A} a.
Arguments Raise {A} e.

Definition bind {A B : Type} (c : M A) (k : A -> M B) : M B :=
  match c with
  | Ok a => k a
  | Raise e => Raise e
  end.

Declare Scope py_scope.
Delimit Scope py_scope with py.

Notation "x <- c ;; k" := (bind c (fun x => k))
  (at level 61, c at next level, right associativity) : py_scope.

(** A Python number: [int] (unbounded; [bool] is a subclass of [int], so
    [True] and [False] are [Int 1] and [Int 0]) or [float]. *)
Inductive num : Set :=
| Int (z : Z)
| Flt (f : float).

(** A dynamically typed argument: [None], a number, a string, or an instance
    of one of the package's classes (['O]). *)
Inductive value (O : Type) : Type :=
| VNone
| VNum (n : num)
| VStr (s : string)
| VObj (o : O).

Arguments VNone {O}.
Arguments VNum {O} n.
Arguments VStr {O} s.
Arguments VObj {O} o.

(** [v == None] and [isinstance(v, (float, int))]. *)
Definition is_None {O : Type} (v : value O) : bool :=
  match v with
  | VNone => true
  | _ => false
  end.

Definition as_number {O : Type} (v : value O) : option num :=
  match v with
  | VNum n => Some n
  | _ => None
  end.

(** *** Conversions between [int] and [float] *)

Definition Z2SF (z : Z) : spec_float :=
  match z with
  | Z0 => S754_zero false
  | Zpos p => S754_finite false p 0
  | Zneg p => S754_finite true p 0
  end.

(** [float(z)] rounded to nearest even, without the overflow check. *)
Definition Z2float (z : Z) : float :=
  SF2Prim (binary_normalize prec emax z 0 false).

(** [PyLong_AsDouble]: an [int] too large for a double raises. *)
Definition int_to_float (z : Z) : M float :=
  let f := Z2float z in
  if is_infinity f then Raise OverflowError else Ok f.

Definition to_float (n : num) : M float :=
  match n with
  | Int z => int_to_float z
  | Flt f => Ok f
  end.

(** *** Comparisons

    [int] against [float] is compared exactly.  CPython converts an [int] of
    at most 48 bits to a double (exactly) and compares doubles; a larger one
    is compared with the exact value of the float. *)

Definition Zcompare_float (z : Z) (f : float) : option comparison :=
  match Prim2SF f with
  | S754_nan => None
  | S754_infinity s => Some (if s then Gt else Lt)
  | S754_zero _ => Some (z ?= 0)%Z
  | S754_finite s m e =>
      let v := cond_Zopp s (Zpos m) in
      Some (if (0 <=? e)%Z then (z ?= v * 2 ^ e)%Z else (z * 2 ^ (- e) ?= v)%Z)
  end.

Definition small_int (z : Z) : bool := (Z.log2 (Z.abs z) <? 48)%Z.

Definition is_Lt (c : option comparison) : bool :=
  match c with Some Lt => true | _ => false end.
Definition is_Gt (c : option comparison) : bool :=
  match c with Some Gt => true | _ => false end.
Definition is_Eq (c : option comparison) : bool :=
  match c with Some Eq => true | _ => false end.

(** [a < b] *)
Definition num_ltb (a b : num) : bool :=
  match a, b with
  | Int x, Int y => (x <? y)%Z
  | Flt x, Flt y => (x <? y)%float
  | Int x, Flt y =>
      if small_int x then (Z2float x <? y)%float else is_Lt (Zcompare_float x y)
  | Flt x, Int y =>
      if small_int y then (x <? Z2float y)%float else is_Gt (Zcompare_float y x)
  end.

(** [a <= b] *)
Definition num_leb (a b : num) : bool :=
  match a, b with
  | Int x, Int y => (x <=? y)%Z
  | Flt x, Flt y => (x <=? y)%float
  | Int x, Flt y =>
      if small_int x then (Z2float x <=? y)%float
      else is_Lt (Zcompare_float x y) || is_Eq (Zcompare_float x y)
  | Flt x, Int y =>
      if small_int y then (x <=? Z2float y)%float
      else is_Gt (Zcompare_float y x) || is_Eq (Zcompare_float y x)
  end.

(** [a == b] *)
Definition num_eqb (a b : num) : bool :=
  match a, b with
  | Int x, Int y => (x =? y)%Z
  | Flt x, Flt y => (x =? y)%float
  | Int x, Flt y =>
      if small_int x then (Z2float x =? y)%float else is_Eq (Zcompare_float x y)
  | Flt x, Int y =>
      if small_int y then (x =? Z2float y)%float else is_Eq (Zcompare_float y x)
  end.

(** [a > b] is [b < a]. *)
Definition num_gtb (a b : num) : bool := num_ltb b a.

(** Truth value of a number: zero is false ([nan] is true). *)
Definition truthy (n : num) : bool :=
  match n with
  | Int z => negb (z =? 0)%Z
  | Flt f => negb (f =? 0)%float
  end.

(** *** Arithmetic *)

(** [x / y] on floats. *)
Definition float_truediv (x y : float) : M float :=
  if (y =? 0)%float then Raise ZeroDivisionError else Ok (x / y)%float.

(** [a / b] on ints: the correctly rounded quotient. *)
Definition int_truediv (a b : Z) : M float :=
  if (b =? 0)%Z then Raise ZeroDivisionError
  else
    let f := SF2Prim (SFdiv prec emax (Z2SF a) (Z2SF b)) in
    if is_infinity f then Raise OverflowError else Ok f.

Definition num_truediv (a b : num) : M float :=
  match a, b with
  | Int x, Int y => int_truediv x y
  | _, _ => (x <- to_float a ;; y <- to_float b ;; float_truediv x y)%py
  end.

Definition num_arith (opZ : Z -> Z -> Z) (opF : float -> float -> float)
  (a b : num) : M num :=
  match a, b with
  | Int x, Int y => Ok (Int (opZ x y))
  | _, _ => (x <- to_float a ;; y <- to_float b ;; Ok (Flt (opF x y)))%py
  end.

Definition num_add : num -> num -> M num := num_arith Z.add PrimFloat.add.
Definition num_sub : num -> num -> M num := num_arith Z.sub PrimFloat.sub.
Definition num_mul : num -> num -> M num := num_arith Z.mul PrimFloat.mul.

(** *** Built-ins and the [math] module *)

(** [min(...)] and [max(...)]: the first smallest (largest) item. *)
Fixpoint min_from (cur : num) (l : list num) : num :=
  match l with
  | [] => cur
  | x :: r => min_from (if num_ltb x cur then x else cur) r
  end.

Fixpoint max_from (cur : num) (l : list num) : num :=
  match l with
  | [] => cur
  | x :: r => max_from (if num_gtb x cur then x else cur) r
  end.

Definition py_min (l : list num) : M num :=
  match l with
  | [] => Raise ValueError
  | x :: r => Ok (min_from x r)
  end.

Definition py_max (l : list num) : M num :=
  match l with
  | [] => Raise ValueError
  | x :: r => Ok (max_from x r)
  end.

Definition min2 (a b : num) : num := min_from a [b].
Definition max2 (a b : num) : num := max_from a [b].

(** [math.pi], and the two constants of [math.radians] and [math.degrees]. *)
Definition math_pi : float := 0x1.921fb54442d18p+1%float.
Definition degToRad : float := (math_pi / 180)%float.
Definition radToDeg : float := (180 / math_pi)%float.

Definition math_radians (n : num) : M float :=
  (x <- to_float n ;; Ok (x * degToRad)%float)%py.

Definition math_degrees (x : float) : float := (x * radToDeg)%float.

(** [math.floor]: an [int]; [nan] and the infinities raise. *)
Definition math_floor (f : float) : M Z :=
  match Prim2SF f with
  | S754_nan => Raise ValueError
  | S754_infinity _ => Raise OverflowError
  | S754_zero _ => Ok 0%Z
  | S754_finite s m e =>
      let v := cond_Zopp s (Zpos m) in
      Ok (if (0 <=? e)%Z then v * 2 ^ e else v / 2 ^ (- e))%Z
  end.


(** [round(x, ndigits)] for [0 <= ndigits]: the exact value of [x] is
    rounded half-even to [ndigits] decimals, and that decimal is converted
    back to the nearest double. *)
Definition round_half_even (n d : Z) : Z :=
  let q := (n / d)%Z in
  let r := (n mod d)%Z in
  match (2 * r ?= d)%Z with
  | Lt => q
  | Gt => (q + 1)%Z
  | Eq => if Z.even q then q else (q + 1)%Z
  end.

Definition py_round (x : float) (ndigits : Z) : M float :=
  match Prim2SF x with
  | S754_finite s m e =>
      let v := cond_Zopp s (Zpos m) in
      let p := (10 ^ ndigits)%Z in
      let n := if (0 <=? e)%Z then (v * 2 ^ e * p)%Z
               else round_half_even (v * p) (2 ^ (- e)) in
      if (n =? 0)%Z then Ok (if s then neg_zero else zero)
      else int_truediv n p
  | _ => Ok x
  end.

(** The platform's C library: [sin], [cos], [asin], [acos], [atan2] and
    [pow] on doubles.  They are total functions; out of their domain they
    return [nan]. *)
Class Libm : Type := {
  c_sin : float -> float;
  c_cos : float -> float;
  c_asin : float -> float;
  c_acos : float -> float;
  c_atan2 : float -> float -> float;
  c_pow : float -> float -> float
}.

(** How the [math] module wraps a C function of one argument: a [nan] that
    does not come from a [nan] argument is a domain error, an infinity from
    a finite argument is a range error. *)
Definition math_1 (func : float -> float) (can_overflow : bool) (x : float) : M float :=
  let r := func x in
  if is_nan r && negb (is_nan x) then Raise ValueError
  else if is_infinity r && is_finite x then
    Raise (if can_overflow then OverflowError else ValueError)
  else Ok r.

(** The same for two arguments. *)
Definition math_2 (func : float -> float -> float) (x y : float) : M float :=
  let r := func x y in
  if is_nan r && negb (is_nan x) && negb (is_nan y) then Raise ValueError
  else if is_infinity r && is_finite x && is_finite y then Raise OverflowError
  else Ok r.

(** [math.sqrt]: the IEEE square root, [nan] on a negative argument. *)
Definition math_sqrt : float -> M float := math_1 sqrt false.

Section Math.
Context {L : Libm}.

Definition math_sin : float -> M float := math_1 c_sin false.
Definition math_cos : float -> M float := math_1 c_cos false.
Definition math_asin : float -> M float := math_1 c_asin false.
Definition math_acos : float -> M float := math_1 c_acos false.
Definition math_atan2 : float -> float -> M float := math_2 c_atan2.

(** [x ** y] on floats. *)
Definition float_pow : float -> float -> M float := math_2 c_pow.

End Math.

End Py.

Import Py.
Local Open Scope py_scope.

(** ** [_safe_math.py] *)

Module _safe_math.
Section WithLibm.
Context {L : Libm}.

(** [modulo = y - (x * math.floor(y/x))] *)
Definition euclidean_modulo (y x : num) : M num :=
  q <- num_truediv y x ;;
  n <- math_floor q ;;
  p <- num_mul x (Int n) ;;
  num_sub y p.

(** [max(-1, min(x, 1))] *)
Definition clamp (x : num) : num := max2 (Int (-1)) (min2 x (Int 1)).

Definition asin_safe (x : num) : M float :=
  a <- to_float (clamp x) ;;
  math_asin a.

Definition acos_safe (x : num) : M float :=
  a <- to_float (clamp x) ;;
  math_acos a.

End WithLibm.
End _safe_math.

(** ** [point.py] *)

Module point.

Record Point : Set := mkPoint {
  latitude : num;
  longitude : num
}.

(** [lo <= value <= hi] *)
Definition between (lo : Z) (v : num) (hi : Z) : bool :=
  num_leb (Int lo) v && num_leb v (Int hi).

(** A validated numeric field: the body shared by every property setter. *)
Definition validated {O : Type} (lo hi : Z) (value : value O) : M num :=
  match as_number value with
  | None => Raise TypeError
  | Some v => if negb (between lo v hi) then Raise ValueError else Ok v
  end.

Definition latitude_setter {O : Type} (value : value O) : M num :=
  validated (-90) 90 value.

Definition longitude_setter {O : Type} (value : value O) : M num :=
  validated (-180) 180 value.

Definition __init__ {O : Type} (latitude longitude : value O) : M Point :=
  lat <- latitude_setter latitude ;;
  lon <- longitude_setter longitude ;;
  Ok (mkPoint lat lon).

End point.

(** ** [bearingline.py] *)

Module bearingline.
Import _safe_math.

Record BearingLine : Set := mkBearingLine {
  latitude : num;
  longitude : num;
  latitude_radians : float;
  longitude_radians : float;
  bearing : num;
  declination : num;
  true_bearing : num;
  true_bearing_radians : float
}.

(** The instances a caller can pass where an object is expected. *)
Inductive instance : Set :=
| IPoint (p : point.Point)
| ILine (b : BearingLine).

Definition pyobj : Type := value instance.

(** [isinstance(v, BearingLine)] *)
Definition as_BearingLine (v : pyobj) : option BearingLine :=
  match v with
  | VObj (ILine b) => Some b
  | _ => None
  end.

Definition latitude_setter (value : pyobj) : M num := point.validated (-90) 90 value.
Definition longitude_setter (value : pyobj) : M num := point.validated (-180) 180 value.
Definition bearing_setter (value : pyobj) : M num := point.validated 0 360 value.
Definition declination_setter (value : pyobj) : M num := point.validated (-180) 180 value.

Definition __init__ (latitude longitude bearing declination : pyobj) : M BearingLine :=
  lat <- latitude_setter latitude ;;
  lon <- longitude_setter longitude ;;
  lat_r <- math_radians lat ;;
  lon_r <- math_radians lon ;;
  brg <- bearing_setter bearing ;;
  dec <- declination_setter declination ;;
  tb <- num_add brg dec ;;
  tb_r <- math_radians tb ;;
  Ok (mkBearingLine lat lon lat_r lon_r brg dec tb tb_r).

(** The result of [get_intersect]: [None], the bare [(lat, lon)] tuple of the
    raw solver, or a [Point]. *)
Inductive intersection : Set :=
| RNone
| RTuple (lat lon : float)
| RPoint (p : point.Point).

Section WithLibm.
Context {L : Libm}.

(** [x ** 2] *)
Definition sq (x : float) : M float := float_pow x 2.

(** The haversine term
    [sin((lat2-lat1)/2)**2 + cos(lat1) * cos(lat2) * sin((lon2-lon1)/2)**2]. *)
Definition haversine_h (lat1 lon1 lat2 lon2 : float) : M float :=
  s1 <- math_sin ((lat2 - lat1) / 2)%float ;;
  a <- sq s1 ;;
  c1 <- math_cos lat1 ;;
  c2 <- math_cos lat2 ;;
  s2 <- math_sin ((lon2 - lon1) / 2)%float ;;
  b <- sq s2 ;;
  Ok (a + c1 * c2 * b)%float.

(** The [if]/[elif] chain of [get_haversine_distance].  [Ok (Some ...)]: a
    branch assigned [lat1, lon1, lat2, lon2] (in radians); [Ok None]: no branch
    was taken and [lat1], [lon1] are still unassigned. *)
Definition bind_points (self : BearingLine) (lat2 lon2 other : pyobj)
  : M (option (float * float * float * float)) :=
  if is_None other && negb (is_None lat2 && is_None lon2) then
    match as_number lat2, as_number lon2 with
    | Some la, Some lo =>
        if negb (point.between (-90) la 90 && point.between (-180) lo 180)
        then Raise ValueError
        else
          la_r <- math_radians la ;;
          lo_r <- math_radians lo ;;
          Ok (Some (latitude_radians self, longitude_radians self, la_r, lo_r))
    | _, _ => Raise TypeError
    end
  else if negb (is_None other) && (is_None lat2 && is_None lon2) then
    match as_BearingLine other with
    | None => Raise TypeError
    | Some o =>
        Ok (Some (latitude_radians self, longitude_radians self,
                  latitude_radians o, longitude_radians o))
    end
  else if is_None other && is_None lat2 && is_None lon2 then
    Raise SyntaxError
  else if negb (is_None other) && negb (is_None lat2) && negb (is_None lon2) then
    Raise SyntaxError
  else Ok None.

(** The distance from the bound locals; reading [lat1] while it is unassigned
    raises. *)
Definition distance_of (env : option (float * float * float * float)) : M float :=
  match env with
  | None => Raise UnboundLocalError
  | Some (lat1, lon1, lat2, lon2) =>
      h <- haversine_h lat1 lon1 lat2 lon2 ;;
      r <- to_float (min2 (Int 1) (Flt h)) ;;
      s <- math_sqrt r ;;
      a <- math_asin s ;;
      Ok (12742 * a)%float
  end.

Definition get_haversine_distance (self : BearingLine) (lat2 lon2 other : pyobj)
  : M float :=
  env <- bind_points self lat2 lon2 other ;;
  distance_of env.

(** [euclidean_modulo(x + math.pi, 2.*math.pi) - math.pi] *)
Definition wrap_pi (x : float) : M float :=
  m <- euclidean_modulo (Flt (x + math_pi)) (Flt (2 * math_pi)) ;;
  r <- to_float m ;;
  Ok (r - math_pi)%float.

(** [acos_safe((sin(latB) - sin(latA)*cos(dst12)) / (sin(dst12)*cos(latA)))] *)
Definition course (latA latB dst12 : float) : M float :=
  sb <- math_sin latB ;;
  sa <- math_sin latA ;;
  cd <- math_cos dst12 ;;
  sd <- math_sin dst12 ;;
  ca <- math_cos latA ;;
  q <- float_truediv (sb - sa * cd) (sd * ca) ;;
  acos_safe (Flt q).

(** The angular distance between the origins and the two angles [ang1],
    [ang2] between each bearing and the line joining the origins. *)
Definition angles (lat1 lon1 crs13 lat2 lon2 crs23 : float)
  : M (float * float * float) :=
  s1 <- math_sin ((lat1 - lat2) / 2)%float ;;
  a <- sq s1 ;;
  c1 <- math_cos lat1 ;;
  c2 <- math_cos lat2 ;;
  s2 <- math_sin ((lon1 - lon2) / 2)%float ;;
  b <- sq s2 ;;
  r <- math_sqrt (a + c1 * c2 * b)%float ;;
  a <- asin_safe (Flt r) ;;
  let dst12 := (2 * a)%float in
  s <- math_sin (lon2 - lon1)%float ;;
  crs <- (if num_ltb (Flt s) (Int 0) then
            c12 <- course lat1 lat2 dst12 ;;
            c21 <- course lat2 lat1 dst12 ;;
            Ok (c12, (2 * math_pi - c21)%float)
          else
            c12 <- course lat1 lat2 dst12 ;;
            c21 <- course lat2 lat1 dst12 ;;
            Ok ((2 * math_pi - c12)%float, c21)) ;;
  let '(crs12, crs21) := crs in
  ang1 <- wrap_pi (crs13 - crs12)%float ;;
  ang2 <- wrap_pi (crs21 - crs23)%float ;;
  Ok (dst12, ang1, ang2).

(** The [else] branch: the spherical triangle, then the rounded result. *)
Definition solve (lat1 lon1 crs13 dst12 ang1 ang2 : float) : M (float * float) :=
  let ang1 := abs ang1 in
  let ang2 := abs ang2 in
  c1 <- math_cos ang1 ;;
  c2 <- math_cos ang2 ;;
  s1 <- math_sin ang1 ;;
  s2 <- math_sin ang2 ;;
  cd <- math_cos dst12 ;;
  ang3 <- acos_safe (Flt ((- c1) * c2 + s1 * s2 * cd)) ;;
  sd <- math_sin dst12 ;;
  s1 <- math_sin ang1 ;;
  s2 <- math_sin ang2 ;;
  c2 <- math_cos ang2 ;;
  c1 <- math_cos ang1 ;;
  c3 <- math_cos ang3 ;;
  dst13 <- math_atan2 (sd * s1 * s2) (c2 + c1 * c3) ;;
  sl <- math_sin lat1 ;;
  cd13 <- math_cos dst13 ;;
  cl <- math_cos lat1 ;;
  sd13 <- math_sin dst13 ;;
  cc <- math_cos crs13 ;;
  lat3 <- asin_safe (Flt (sl * cd13 + cl * sd13 * cc)) ;;
  sc <- math_sin crs13 ;;
  sd13 <- math_sin dst13 ;;
  cl <- math_cos lat1 ;;
  cd13 <- math_cos dst13 ;;
  sl <- math_sin lat1 ;;
  sl3 <- math_sin lat3 ;;
  dlon <- math_atan2 (sc * sd13 * cl) (cd13 - sl * sl3) ;;
  lon3 <- wrap_pi (lon1 - dlon)%float ;;
  la <- py_round (math_degrees lat3) 5 ;;
  lo <- py_round (math_degrees (- lon3)) 5 ;;
  Ok (la, lo).

(** [raise e] unless errors are suppressed, then [return None]. *)
Definition fail_or_none {A : Type} (suppress_errors : bool) (e : exn) : M (option A) :=
  if negb suppress_errors then Raise e else Ok None.

(** [sin(ang1) == 0 and sin(ang2) == 0] *)
Definition both_sines_zero (ang1 ang2 : float) : M bool :=
  s1 <- math_sin ang1 ;;
  if num_eqb (Flt s1) (Int 0) then
    s2 <- math_sin ang2 ;;
    Ok (num_eqb (Flt s2) (Int 0))
  else Ok false.

(** [sin(ang1) * sin(ang2) < 0] *)
Definition sines_opposed (ang1 ang2 : float) : M bool :=
  s1 <- math_sin ang1 ;;
  s2 <- math_sin ang2 ;;
  Ok (num_ltb (Flt (s1 * s2)) (Int 0)).

(** [other] and [suppress_errors] are typed: the two [isinstance] guards
    always pass.  [None] is "no result". *)
Definition _intersect (self other : BearingLine) (suppress_errors : bool)
  : M (option (float * float)) :=
  let lat1 := latitude_radians self in
  let lon1 := (- longitude_radians self)%float in
  let crs13 := true_bearing_radians self in
  let lat2 := latitude_radians other in
  let lon2 := (- longitude_radians other)%float in
  let crs23 := true_bearing_radians other in
  if (lat1 =? lat2)%float && (lon1 =? lon2)%float then
    fail_or_none suppress_errors IdenticalInputPointError
  else
    a <- angles lat1 lon1 crs13 lat2 lon2 crs23 ;;
    let '(dst12, ang1, ang2) := a in
    infinite <- both_sines_zero ang1 ang2 ;;
    if infinite then fail_or_none suppress_errors InfiniteIntersectionError
    else
      ambiguous <- sines_opposed ang1 ang2 ;;
      if ambiguous then fail_or_none suppress_errors AmbiguousIntersectionError
      else
        p <- solve lat1 lon1 crs13 dst12 ang1 ang2 ;;
        Ok (Some p).

(** [any([warn_probable_divergence, suppress_probable_divergence,
          suppress_greater_than])] *)
Definition any_policy (warn suppress : bool) (suppress_greater_than : option num) : bool :=
  warn || suppress ||
  match suppress_greater_than with
  | None => false
  | Some n => truthy n
  end.

(** [suppress_greater_than is not None and m > suppress_greater_than] *)
Definition exceeds (m : num) (suppress_greater_than : option num) : bool :=
  match suppress_greater_than with
  | None => false
  | Some n => num_gtb m n
  end.

(** [all([d1 > 10000, d2 > 10000, d12 < 10000])] *)
Definition probably_diverge (d1 d2 d12 : float) : bool :=
  num_gtb (Flt d1) (Int 10000) && num_gtb (Flt d2) (Int 10000) &&
  num_ltb (Flt d12) (Int 10000).

(** [Point(intersection[0], intersection[1])] *)
Definition as_Point (lat lon : float) : M intersection :=
  p <- point.__init__ (O := instance) (VNum (Flt lat)) (VNum (Flt lon)) ;;
  Ok (RPoint p).

(** The flags are typed: the three [isinstance] guards on them always pass. *)
Definition get_intersect (self other : BearingLine)
  (warn_probable_divergence suppress_probable_divergence : bool)
  (suppress_greater_than : option num) (ignore_errors : bool) : M intersection :=
  i <- _intersect self other ignore_errors ;;
  if negb (any_policy warn_probable_divergence suppress_probable_divergence
             suppress_greater_than)
  then
    Ok (match i with
        | None => RNone
        | Some (lat, lon) => RTuple lat lon
        end)
  else
    match i with
    | None => Ok RNone
    | Some (lat, lon) =>
        this_point_to_intersect <-
          get_haversine_distance self (VNum (Flt lat)) (VNum (Flt lon)) VNone ;;
        other_point_to_intersect <-
          get_haversine_distance other (VNum (Flt lat)) (VNum (Flt lon)) VNone ;;
        this_point_to_other <-
          get_haversine_distance self VNone VNone (VObj (ILine other)) ;;
        let max_point_to_intersect :=
          max2 (Flt this_point_to_intersect) (Flt other_point_to_intersect) in
        if exceeds max_point_to_intersect suppress_greater_than then Ok RNone
        else if probably_diverge this_point_to_intersect other_point_to_intersect
                  this_point_to_other
        then
          if suppress_probable_divergence then Ok RNone
          else if warn_probable_divergence then Raise ProbableDivergenceError
          else as_Point lat lon
        else as_Point lat lon
    end.

End WithLibm.
End bearingline.

(** ** [geo_helpers.py] *)

Module geo_helpers.
Import bearingline.

(** [isinstance(x, Point)] *)
Definition as_Point (v : pyobj) : option point.Point :=
  match v with
  | VObj (IPoint p) => Some p
  | _ => None
  end.

(** [[point for point in point_list]] when every item is a [Point]. *)
Fixpoint all_Points (l : list pyobj) : option (list point.Point) :=
  match l with
  | [] => Some []
  | v :: r =>
      match as_Point v, all_Points r with
      | Some p, Some ps => Some (p :: ps)
      | _, _ => None
      end
  end.

(** [point_list] is a list or a tuple: its items, in order. *)
Definition bounding_box (point_list : list pyobj) : M (num * num * num * num) :=
  match all_Points point_list with
  | None => Raise TypeError
  | Some ps =>
      let latitudes := map point.latitude ps in
      let longitudes := map point.longitude ps in
      min_lon <- py_min longitudes ;;
      max_lon <- py_max longitudes ;;
      min_lat <- py_min latitudes ;;
      max_lat <- py_max latitudes ;;
      if num_eqb min_lon max_lon || num_eqb min_lat max_lat
      then Raise AmbiguousBoxError
      else Ok (min_lon, max_lon, min_lat, max_lat)
  end.

Section WithLibm.
Context {L : Libm}.

(** [round(2 * radius * asin(sqrt(min(1, h))), 4)] between two Points. *)
Definition haversine_distance (point_1 point_2 : point.Point) : M float :=
  lat1 <- math_radians (point.latitude point_1) ;;
  lon1 <- math_radians (point.longitude point_1) ;;
  lat2 <- math_radians (point.latitude point_2) ;;
  lon2 <- math_radians (point.longitude point_2) ;;
  h <- haversine_h lat1 lon1 lat2 lon2 ;;
  r <- to_float (min2 (Int 1) (Flt h)) ;;
  s <- math_sqrt r ;;
  a <- math_asin s ;;
  py_round (12742 * a)%float 4.

End WithLibm.
End geo_helpers.

(** ** A reference instance of [Libm]

    An executable stand-in for the C library (argument reduction and Taylor
    series in binary64), accurate to a few units in the last place for finite
    arguments.  It serves to run the model on concrete inputs; no general
    theorem below depends on it. *)

Module RefLibm.
Local Open Scope float_scope.

Definition half_pi : float := math_pi / 2.
Definition two_pi : float := 2 * math_pi.

(** Sum of the terms that follow [term] in an alternating series whose
    successive terms are related by [- x2 / ((k+1)(k+2))]. *)
Fixpoint alternating (fuel : nat) (x2 term k acc : float) : float :=
  match fuel with
  | O => acc
  | S fuel' =>
      let term' := - term * x2 / ((k + 1) * (k + 2)) in
      alternating fuel' x2 term' (k + 2) (acc + term')
  end.

(** [x] reduced to [[-pi, pi]]; [nan] when [x] is not finite. *)
Definition reduce (x : float) : float :=
  match math_floor (x / two_pi + 0.5) with
  | Ok k => x - Z2float k * two_pi
  | Raise _ => nan
  end.

Definition sin (x : float) : float :=
  let r := reduce x in alternating 16 (r * r) r 1 r.

Definition cos (x : float) : float :=
  let r := reduce x in alternating 16 (r * r) 1 0 1.

(** [x - x^3/3 + x^5/5 - ...] *)
Fixpoint atan_series (fuel : nat) (x2 pw k acc : float) : float :=
  match fuel with
  | O => acc
  | S fuel' =>
      let pw' := - pw * x2 in
      atan_series fuel' x2 pw' (k + 2) (acc + pw' / (k + 2))
  end.

(** [atan x = 2 * atan (x / (1 + sqrt (1 + x^2)))] *)
Definition halve (x : float) : float := x / (1 + sqrt (1 + x * x)).

Definition atan_unit (x : float) : float :=
  let y := halve (halve (halve x)) in
  8 * atan_series 14 (y * y) y 1 y.

Definition atan (x : float) : float :=
  if 1 <? x then half_pi - atan_unit (1 / x)
  else if x <? -1 then - half_pi - atan_unit (1 / x)
  else atan_unit x.

Definition atan2 (y x : float) : float :=
  if 0 <? x then atan (y / x)
  else if x <? 0 then (if y <? 0 then atan (y / x) - math_pi else atan (y / x) + math_pi)
  else if 0 <? y then half_pi
  else if y <? 0 then - half_pi
  else y + x.

Definition asin (x : float) : float :=
  if abs x <=? 1 then atan2 x (sqrt ((1 - x) * (1 + x))) else nan.

Definition acos (x : float) : float :=
  if abs x <=? 1 then atan2 (sqrt ((1 - x) * (1 + x))) x else nan.

(** [pow(x, y)] for the exponents 0, 1 and 2 (the package only squares). *)
Definition pow (x y : float) : float :=
  if y =? 2 then x * x
  else if y =? 1 then x
  else if y =? 0 then 1
  else nan.

#[export] Instance libm : Libm := {
  c_sin := sin;
  c_cos := cos;
  c_asin := asin;
  c_acos := acos;
  c_atan2 := atan2;
  c_pow := pow
}.

End RefLibm.

(** ** Vocabulary of the statements, and the running examples *)

(** The exceptions of the interpreter, as opposed to those of [_errors.py]. *)
Definition builtin (e : exn) : bool :=
  match e with
  | TypeError | ValueError | SyntaxError | ZeroDivisionError
  | OverflowError | UnboundLocalError => true
  | _ => false
  end.

(** [c] raises nothing but built-in exceptions. *)
Definition plain {A : Type} (c : M A) : Prop :=
  forall e, c = Raise e -> builtin e = true.

(** The integers [lo, lo+1, ..., lo+n-1]. *)
Fixpoint Zrange (lo : Z) (n : nat) : list Z :=
  match n with
  | O => []
  | S n' => lo :: Zrange (lo + 1) n'
  end.

(** The two origins are equal after conversion to radians. *)
Definition same_origin (self other : bearingline.BearingLine) : bool :=
  (bearingline.latitude_radians self =? bearingline.latitude_radians other)%float &&
  (bearingline.longitude_radians self =? bearingline.longitude_radians other)%float.

Module Examples.
Import bearingline.

(** [BearingLine(lat, lon, bearing)] for integer degrees: the fields that
    [__init__] computes. *)
Definition line (lat lon brg : Z) : BearingLine :=
  mkBearingLine (Int lat) (Int lon)
    (Z2float lat * degToRad)%float (Z2float lon * degToRad)%float
    (Int brg) (Int 0) (Int (brg + 0)) (Z2float (brg + 0) * degToRad)%float.

(** Two lines that cross at about (4.98, 5). *)
Definition lineA : BearingLine := line 0 0 45.
Definition lineB : BearingLine := line 0 10 315.

(** A line from the origin of [lineA]. *)
Definition lineC : BearingLine := line 0 0 315.

(** Two meridians from 10 degrees south: they cross at the pole, more than
    10000 km away. *)
Definition lineS : BearingLine := line (-10) 0 0.
Definition lineT : BearingLine := line (-10) 1 0.

End Examples.

(** A bearing in the closed interval from 0 to 360 degrees. *)
Definition bearing_valid (b : num) : Prop :=
  match b with
  | Int z => (0 <= z <= 360)%Z
  | Flt f => (0 <=? f)%float = true /\ (f <=? 360)%float = true
  end.

(** Exactly one of [lat2], [lon2] is given. *)
Definition one_coordinate {O : Type} (lat2 lon2 : value O) : bool :=
  xorb (is_None lat2) (is_None lon2).

(** [math.pi / 2] *)
Definition pi_over_2 : float := (math_pi / 2)%float.

(** ** Further vocabulary: assignments to an existing line, suppression *)

Module Assign.
Import bearingline.

(** [self.latitude = value] and the three other property assignments on an
    existing [BearingLine]: the setter validates and stores the field; no
    other attribute is touched. *)
Definition latitude (self : BearingLine) (value : pyobj) : M BearingLine :=
  v <- latitude_setter value ;;
  Ok (mkBearingLine v (longitude self) (latitude_radians self)
        (longitude_radians self) (bearing self) (declination self)
        (true_bearing self) (true_bearing_radians self)).

Definition longitude (self : BearingLine) (value : pyobj) : M BearingLine :=
  v <- longitude_setter value ;;
  Ok (mkBearingLine (bearingline.latitude self) v (latitude_radians self)
        (longitude_radians self) (bearing self) (declination self)
        (true_bearing self) (true_bearing_radians self)).

Definition bearing (self : BearingLine) (value : pyobj) : M BearingLine :=
  v <- bearing_setter value ;;
  Ok (mkBearingLine (bearingline.latitude self) (bearingline.longitude self)
        (latitude_radians self) (longitude_radians self) v (declination self)
        (true_bearing self) (true_bearing_radians self)).

Definition declination (self : BearingLine) (value : pyobj) : M BearingLine :=
  v <- declination_setter value ;;
  Ok (mkBearingLine (bearingline.latitude self) (bearingline.longitude self)
        (latitude_radians self) (longitude_radians self)
        (bearingline.bearing self) v
        (true_bearing self) (true_bearing_radians self)).

End Assign.

(** The three exceptions that [suppress_errors] turns into "no result". *)
Definition degenerate (e : exn) : bool :=
  match e with
  | IdenticalInputPointError | InfiniteIntersectionError
  | AmbiguousIntersectionError => true
  | _ => false
  end.

(** An outcome with its degenerate exceptions replaced by [none]. *)
Definition suppressed {A : Type} (none : A) (r : M A) : M A :=
  match r with
  | Raise e => if degenerate e then Ok none else Raise e
  | Ok a => Ok a
  end.

(** A number that passes the range check of a coordinate is finite. *)
Definition finite_num (n : num) : bool :=
  match n with
  | Int _ => true
  | Flt f => is_finite f
  end.

(** The coordinates of a point are within their ranges, as the setters of
    [Point] leave them. *)
Definition valid_point (p : point.Point) : Prop :=
  point.between (-90) (point.latitude p) 90 = true /\
  point.between (-180) (point.longitude p) 180 = true.

(** The fields of a line are within their ranges and the derived fields are
    those of the primary ones, as [__init__] leaves them. *)
Definition consistent (b : bearingline.BearingLine) : Prop :=
  point.between (-90) (bearingline.latitude b) 90 = true /\
  point.between (-180) (bearingline.longitude b) 180 = true /\
  point.between 0 (bearingline.bearing b) 360 = true /\
  point.between (-180) (bearingline.declination b) 180 = true /\
  math_radians (bearingline.latitude b) = Ok (bearingline.latitude_radians b) /\
  math_radians (bearingline.longitude b) = Ok (bearingline.longitude_radians b) /\
  num_add (bearingline.bearing b) (bearingline.declination b)
    = Ok (bearingline.true_bearing b) /\
  math_radians (bearingline.true_bearing b) = Ok (bearingline.true_bearing_radians b).

(** The double a coordinate is compared as. *)
Definition key (n : num) : float :=
  match n with
  | Int z => Z2float z
  | Flt f => f
  end.

(** The position of a float in the order of [SFcompare]: three integers
    compared lexicographically ([None] for [nan]). *)
Definition rank (x : spec_float) : option (Z * Z * Z) :=
  match x with
  | S754_nan => None
  | S754_infinity true => Some (-2, 0, 0)%Z
  | S754_finite true m e => Some (-1, - e, Zneg m)%Z
  | S754_zero _ => Some (0, 0, 0)%Z
  | S754_finite false m e => Some (1, e, Zpos m)%Z
  | S754_infinity false => Some (2, 0, 0)%Z
  end.

Definition cmp3 (a b : Z * Z * Z) : comparison :=
  let '(a1, a2, a3) := a in
  let '(b1, b2, b3) := b in
  match (a1 ?= b1)%Z with
  | Eq => match (a2 ?= b2)%Z with
          | Eq => (a3 ?= b3)%Z
          | c => c
          end
  | c => c
  end.

(** A coordinate that compares as its double: an integer of at most three
    digits, or a float other than [nan]. *)
Definition ordered (n : num) : Prop :=
  match n with
  | Int z => (-180 <= z <= 180)%Z
  | Flt f => (f =? f)%float = true
  end.

(** Two points for the examples of [bounding_box]. *)
Definition example_points : list bearingline.pyobj :=
  [VObj (bearingline.IPoint (point.mkPoint (Int 0) (Int 2)));
   VObj (bearingline.IPoint (point.mkPoint (Int 1) (Int 0)))].

(** * Properties *)

(** ** The error monad *)

Lemma bind_Ok_inv {A B : Type} (c : M A) (k : A -> M B) (b : B) :
  bind c k = Ok b -> exists a, c = Ok a /\ k a = Ok b.
Proof.
  destruct c as [a|e]; simpl; intros H; [eauto | discriminate].
Qed.

Lemma bind_Raise_inv {A B : Type} (c : M A) (k : A -> M B) (e : exn) :
  bind c k = Raise e -> c = Raise e \/ exists a, c = Ok a /\ k a = Raise e.
Proof.
  destruct c as [a|e']; simpl; intros H; [right; eauto | left; congruence].
Qed.

Lemma plain_Ok {A : Type} (a : A) : plain (Ok a).
Proof. intros e H; discriminate. Qed.

Lemma plain_Raise {A : Type} (e : exn) : builtin e = true -> plain (@Raise A e).
Proof. intros He e' H; injection H as <-; exact He. Qed.

Lemma plain_bind {A B : Type} (c : M A) (k : A -> M B) :
  plain c -> (forall a, plain (k a)) -> plain (bind c k).
Proof.
  intros Hc Hk e H. apply bind_Raise_inv in H as [H | (a & _ & H)].
  - exact (Hc e H).
  - exact (Hk a e H).
Qed.

Lemma plain_if {A : Type} (b : bool) (c d : M A) :
  plain c -> plain d -> plain (if b then c else d).
Proof. destruct b; auto. Qed.

Create HintDb plain.
#[local] Hint Resolve plain_Ok plain_bind plain_if : plain.
#[local] Hint Extern 1 (plain (Raise _)) => (apply plain_Raise; reflexivity) : plain.

Ltac plain_tac :=
  repeat first
    [ apply plain_Ok
    | apply plain_Raise; reflexivity
    | apply plain_bind; [ | intro ]
    | apply plain_if
    | match goal with
      | |- plain (match ?x with _ => _ end) => destruct x
      | |- plain (let '(_, _) := ?x in _) => destruct x
      end
    | solve [ auto with plain ] ].

Lemma plain_math_1 (func : float -> float) (b : bool) (x : float) :
  plain (math_1 func b x).
Proof. unfold math_1. destruct b; plain_tac. Qed.

Lemma plain_math_2 (func : float -> float -> float) (x y : float) :
  plain (math_2 func x y).
Proof. unfold math_2. plain_tac. Qed.

Lemma plain_int_to_float (z : Z) : plain (int_to_float z).
Proof. unfold int_to_float. plain_tac. Qed.

Lemma plain_to_float (n : num) : plain (to_float n).
Proof. destruct n; simpl; [apply plain_int_to_float | apply plain_Ok]. Qed.

#[local] Hint Resolve plain_math_1 plain_math_2 plain_int_to_float plain_to_float : plain.

Lemma plain_float_truediv (x y : float) : plain (float_truediv x y).
Proof. unfold float_truediv. plain_tac. Qed.

Lemma plain_int_truediv (a b : Z) : plain (int_truediv a b).
Proof. unfold int_truediv. plain_tac. Qed.

#[local] Hint Resolve plain_float_truediv plain_int_truediv : plain.

Lemma plain_num_truediv (a b : num) : plain (num_truediv a b).
Proof. unfold num_truediv. destruct a, b; plain_tac. Qed.

Lemma plain_num_arith opZ opF (a b : num) : plain (num_arith opZ opF a b).
Proof. unfold num_arith. destruct a, b; plain_tac. Qed.

Lemma plain_math_floor (f : float) : plain (math_floor f).
Proof. unfold math_floor. plain_tac. Qed.

Lemma plain_py_round (x : float) (n : Z) : plain (py_round x n).
Proof. unfold py_round. plain_tac. Qed.

Lemma plain_math_radians (n : num) : plain (math_radians n).
Proof. unfold math_radians. plain_tac. Qed.

#[local] Hint Resolve plain_num_truediv plain_num_arith plain_math_floor
  plain_py_round plain_math_radians : plain.

(** ** Binary64 comparisons, from their specification *)

Lemma compare_cont_swap (p q : positive) :
  Pos.compare_cont Eq q p = CompOpp (Pos.compare_cont Eq p q).
Proof. now rewrite Pos.compare_cont_antisym. Qed.

Lemma SFcompare_antisym (x y : spec_float) (c : comparison) :
  SFcompare x y = Some c -> SFcompare y x = Some (CompOpp c).
Proof.
  destruct x as [sx|sx| |sx mx ex], y as [sy|sy| |sy my ey]; simpl;
    try discriminate.
  all: try (destruct sx; try destruct sy; intros H; injection H as <-; reflexivity).
  all: try (destruct sy; intros H; injection H as <-; reflexivity).
  intros H; injection H as <-. f_equal.
  rewrite (Z.compare_antisym ex ey), (compare_cont_swap mx my).
  destruct sx, sy; simpl; try reflexivity;
    destruct (ex ?= ey)%Z; simpl; try reflexivity;
    destruct (Pos.compare_cont Eq mx my); reflexivity.
Qed.

Lemma SFcompare_opp (x y : spec_float) :
  SFcompare (SFopp x) (SFopp y) = SFcompare y x.
Proof.
  destruct x as [sx|sx| |sx mx ex], y as [sy|sy| |sy my ey]; simpl;
    try reflexivity.
  all: try (destruct sx; try destruct sy; reflexivity).
  all: try (destruct sy; reflexivity).
  rewrite (Z.compare_antisym ex ey), (compare_cont_swap mx my).
  destruct sx, sy; simpl; try reflexivity;
    destruct (ex ?= ey)%Z; simpl; try reflexivity;
    destruct (Pos.compare_cont Eq mx my); reflexivity.
Qed.

Lemma float_eqb_sym (a b : float) : (a =? b)%float = (b =? a)%float.
Proof.
  rewrite !eqb_spec. unfold SFeqb.
  destruct (SFcompare (Prim2SF a) (Prim2SF b)) as [c|] eqn:E.
  - rewrite (SFcompare_antisym _ _ _ E). destruct c; reflexivity.
  - destruct (SFcompare (Prim2SF b) (Prim2SF a)) as [c|] eqn:E'; [|reflexivity].
    rewrite (SFcompare_antisym _ _ _ E') in E. discriminate.
Qed.

(** Negating both sides does not change [==]. *)
Lemma float_eqb_opp (a b : float) : (- a =? - b)%float = (a =? b)%float.
Proof.
  rewrite (float_eqb_sym a b), !eqb_spec, !opp_spec. unfold SFeqb.
  now rewrite SFcompare_opp.
Qed.

Lemma float_ltb_leb (a b : float) : (a <? b)%float = true -> (a <=? b)%float = true.
Proof.
  rewrite ltb_spec, leb_spec. unfold SFltb, SFleb.
  destruct (SFcompare (Prim2SF a) (Prim2SF b)) as [[]|]; congruence.
Qed.

(** When [a] and [b] are ordered and [a < b] fails, [b <= a]. *)
Lemma float_not_ltb_leb (a b c : float) :
  (c <? b)%float = true -> (a =? a)%float = true ->
  (a <? b)%float = false -> (b <=? a)%float = true.
Proof.
  rewrite !ltb_spec, leb_spec, eqb_spec. unfold SFltb, SFleb, SFeqb.
  intros Hc Ha Hab.
  destruct (SFcompare (Prim2SF a) (Prim2SF b)) as [cmp|] eqn:E.
  - rewrite (SFcompare_antisym _ _ _ E). destruct cmp; simpl; congruence.
  - exfalso. destruct (Prim2SF a), (Prim2SF b), (Prim2SF c); simpl in *; discriminate.
Qed.

(** Small integers convert exactly and never overflow. *)
Lemma Zrange_In (n : nat) : forall lo z,
  (lo <= z < lo + Z.of_nat n)%Z -> In z (Zrange lo n).
Proof.
  induction n as [|n IH]; intros lo z Hz; [lia|].
  simpl. destruct (Z.eq_dec lo z) as [->|Hne]; [now left|].
  right. apply IH. lia.
Qed.

Lemma int_to_float_small (z : Z) :
  (-1000 <= z <= 1000)%Z -> int_to_float z = Ok (Z2float z).
Proof.
  intros Hz.
  assert (H : forallb (fun z => negb (is_infinity (Z2float z))) (Zrange (-1000) 2001) = true)
    by (vm_compute; reflexivity).
  rewrite forallb_forall in H.
  specialize (H z (Zrange_In 2001 (-1000) z ltac:(lia))).
  unfold int_to_float. now destruct (is_infinity (Z2float z)).
Qed.

(** ** [bounding_box] *)

(** C7 (as amended).  On a sequence of fewer than one point [bounding_box]
    fails: [min()] of the empty list of longitudes raises the built-in
    [ValueError]; no box is returned. *)
Theorem bounding_box_empty_ValueError (point_list : list bearingline.pyobj) :
  (List.length point_list < 1)%nat ->
  geo_helpers.bounding_box point_list = Raise ValueError.
Proof.
  destruct point_list as [|v r]; simpl; [reflexivity | lia].
Qed.

Lemma bounding_box_empty_ValueError_witness :
  geo_helpers.bounding_box [] = Raise ValueError.
Proof.
  apply (bounding_box_empty_ValueError []). simpl. lia.
Defined.

(** C7 (as stated) fails: the error on the empty list is not
    [EmptyInputError]. *)
Lemma bounding_box_empty_not_EmptyInputError :
  geo_helpers.bounding_box [] <> Raise EmptyInputError.
Proof. simpl. discriminate. Qed.

(** ** The package raises its own exceptions only where it says so *)

Section Plain.
Context {L : Libm}.
Import _safe_math bearingline.

Lemma plain_math_sin x : plain (math_sin x).
Proof. apply plain_math_1. Qed.
Lemma plain_math_cos x : plain (math_cos x).
Proof. apply plain_math_1. Qed.
Lemma plain_math_asin x : plain (math_asin x).
Proof. apply plain_math_1. Qed.
Lemma plain_math_acos x : plain (math_acos x).
Proof. apply plain_math_1. Qed.
Lemma plain_math_sqrt x : plain (math_sqrt x).
Proof. apply plain_math_1. Qed.
Lemma plain_math_atan2 x y : plain (math_atan2 x y).
Proof. apply plain_math_2. Qed.
Lemma plain_sq x : plain (sq x).
Proof. apply plain_math_2. Qed.

#[local] Hint Resolve plain_math_sin plain_math_cos plain_math_asin plain_math_acos
  plain_math_sqrt plain_math_atan2 plain_sq : plain.

Lemma plain_euclidean_modulo y x : plain (euclidean_modulo y x).
Proof. unfold euclidean_modulo, num_mul, num_sub. plain_tac. Qed.

Lemma plain_asin_safe x : plain (asin_safe x).
Proof. unfold asin_safe. plain_tac. Qed.

Lemma plain_acos_safe x : plain (acos_safe x).
Proof. unfold acos_safe. plain_tac. Qed.

#[local] Hint Resolve plain_euclidean_modulo plain_asin_safe plain_acos_safe : plain.

Lemma plain_haversine_h a b c d : plain (haversine_h a b c d).
Proof. unfold haversine_h. plain_tac. Qed.

Lemma plain_wrap_pi x : plain (wrap_pi x).
Proof. unfold wrap_pi. plain_tac. Qed.

Lemma plain_course a b d : plain (course a b d).
Proof. unfold course. plain_tac. Qed.

#[local] Hint Resolve plain_haversine_h plain_wrap_pi plain_course : plain.

Lemma plain_angles a b c d e f : plain (angles a b c d e f).
Proof. unfold angles. plain_tac. Qed.

Lemma plain_solve a b c d e f : plain (solve a b c d e f).
Proof. unfold solve. plain_tac. Qed.

Lemma plain_both_sines_zero a b : plain (both_sines_zero a b).
Proof. unfold both_sines_zero. plain_tac. Qed.

Lemma plain_sines_opposed a b : plain (sines_opposed a b).
Proof. unfold sines_opposed. plain_tac. Qed.

Lemma plain_validated {O : Type} lo hi (v : value O) : plain (point.validated lo hi v).
Proof. unfold point.validated. plain_tac. Qed.

Lemma plain_Point_init {O : Type} (la lo : value O) : plain (point.__init__ la lo).
Proof.
  unfold point.__init__, point.latitude_setter, point.longitude_setter.
  plain_tac; apply plain_validated.
Qed.

Lemma plain_get_haversine_distance self la lo o :
  plain (get_haversine_distance self la lo o).
Proof.
  unfold get_haversine_distance, bind_points, distance_of. plain_tac.
Qed.

End Plain.

(** ** The raw solver [_intersect] *)

Section Intersect.
Context {L : Libm}.
Import _safe_math bearingline.

(** The guard of [_intersect] compares the negated longitudes; that is the
    comparison of the origins themselves. *)
Lemma identical_guard (self other : BearingLine) :
  ((latitude_radians self =? latitude_radians other)%float &&
   (- longitude_radians self =? - longitude_radians other)%float)
  = same_origin self other.
Proof. unfold same_origin. now rewrite float_eqb_opp. Qed.

Lemma intersect_same_origin (self other : BearingLine) (suppress_errors : bool) :
  same_origin self other = true ->
  _intersect self other suppress_errors
  = if suppress_errors then Ok None else Raise IdenticalInputPointError.
Proof.
  intros H. unfold _intersect. rewrite identical_guard, H.
  unfold fail_or_none. now destruct suppress_errors.
Qed.

(** What [_intersect] does once the origins are known to differ. *)
Lemma intersect_distinct (self other : BearingLine) (suppress_errors : bool) :
  same_origin self other = false ->
  _intersect self other suppress_errors =
    (a <- angles (latitude_radians self) (- longitude_radians self)
           (true_bearing_radians self)
           (latitude_radians other) (- longitude_radians other)
           (true_bearing_radians other) ;;
     let '(dst12, ang1, ang2) := a in
     infinite <- both_sines_zero ang1 ang2 ;;
     if infinite then fail_or_none suppress_errors InfiniteIntersectionError
     else
       ambiguous <- sines_opposed ang1 ang2 ;;
       if ambiguous then fail_or_none suppress_errors AmbiguousIntersectionError
       else
         p <- solve (latitude_radians self) (- longitude_radians self)
                (true_bearing_radians self) dst12 ang1 ang2 ;;
         Ok (Some p)).
Proof.
  intros H. unfold _intersect. now rewrite identical_guard, H.
Qed.

(** The exceptions of [_intersect]: built-in ones and the three of the
    degenerate cases, each from its own branch. *)
Lemma fail_or_none_Raise {A : Type} (suppress_errors : bool) (e e' : exn) :
  @fail_or_none A suppress_errors e = Raise e' -> e' = e /\ suppress_errors = false.
Proof.
  unfold fail_or_none. destruct suppress_errors; simpl; intros H;
    [discriminate | injection H as <-; auto].
Qed.

Lemma intersect_distinct_Raise (self other : BearingLine) (suppress_errors : bool) (e : exn) :
  same_origin self other = false ->
  _intersect self other suppress_errors = Raise e ->
  builtin e = true \/
  suppress_errors = false /\
  (e = InfiniteIntersectionError \/ e = AmbiguousIntersectionError).
Proof.
  intros H E. rewrite (intersect_distinct _ _ _ H) in E.
  apply bind_Raise_inv in E as [E | ([[dst12 ang1] ang2] & _ & E)].
  { left. exact (plain_angles _ _ _ _ _ _ _ E). }
  apply bind_Raise_inv in E as [E | (infinite & _ & E)].
  { left. exact (plain_both_sines_zero _ _ _ E). }
  destruct infinite.
  { apply fail_or_none_Raise in E as [-> ->]. auto. }
  apply bind_Raise_inv in E as [E | (ambiguous & _ & E)].
  { left. exact (plain_sines_opposed _ _ _ E). }
  destruct ambiguous.
  { apply fail_or_none_Raise in E as [-> ->]. auto. }
  apply bind_Raise_inv in E as [E | (p & _ & E)]; [|discriminate].
  left. exact (plain_solve _ _ _ _ _ _ _ E).
Qed.

(** C2.  When the two origins are equal in radians the raw solver raises
    [IdenticalInputPointError], or returns [None] when errors are suppressed;
    when they differ, that error is never raised. *)
Theorem identical_origins (self other : BearingLine) (suppress_errors : bool) :
  (same_origin self other = true ->
   _intersect self other suppress_errors
   = if suppress_errors then Ok None else Raise IdenticalInputPointError)
  /\
  (same_origin self other = false ->
   _intersect self other suppress_errors <> Raise IdenticalInputPointError).
Proof.
  split.
  - apply intersect_same_origin.
  - intros H E.
    destruct (intersect_distinct_Raise _ _ _ _ H E) as [B | (_ & [B | B])];
      discriminate.
Qed.

(** C1.  For distinct origins, with [ang1] and [ang2] computed and their
    sines [s1], [s2]: first, both sines zero gives
    [InfiniteIntersectionError] (or [None]); otherwise a negative product
    gives [AmbiguousIntersectionError] (or [None]); otherwise the triangle is
    solved. *)
Theorem degeneracy_order (self other : BearingLine) (suppress_errors : bool)
  (dst12 ang1 ang2 s1 s2 : float) :
  same_origin self other = false ->
  angles (latitude_radians self) (- longitude_radians self) (true_bearing_radians self)
    (latitude_radians other) (- longitude_radians other) (true_bearing_radians other)
  = Ok (dst12, ang1, ang2) ->
  math_sin ang1 = Ok s1 ->
  math_sin ang2 = Ok s2 ->
  _intersect self other suppress_errors =
    if ((s1 =? 0) && (s2 =? 0))%float then
      if suppress_errors then Ok None else Raise InfiniteIntersectionError
    else if (s1 * s2 <? 0)%float then
      if suppress_errors then Ok None else Raise AmbiguousIntersectionError
    else
      p <- solve (latitude_radians self) (- longitude_radians self)
             (true_bearing_radians self) dst12 ang1 ang2 ;;
      Ok (Some p).
Proof.
  intros H Ha H1 H2. rewrite (intersect_distinct _ _ _ H), Ha. cbn [bind].
  unfold both_sines_zero, sines_opposed, fail_or_none. rewrite H1, H2. cbn [bind].
  change (num_eqb (Flt s1) (Int 0)) with (s1 =? 0)%float.
  change (num_eqb (Flt s2) (Int 0)) with (s2 =? 0)%float.
  change (num_ltb (Flt (s1 * s2)) (Int 0)) with (s1 * s2 <? 0)%float.
  destruct (s1 =? 0)%float; cbn [bind andb].
  - destruct (s2 =? 0)%float; cbn [bind]; [now destruct suppress_errors|].
    destruct (s1 * s2 <? 0)%float; [now destruct suppress_errors | reflexivity].
  - destruct (s1 * s2 <? 0)%float; [now destruct suppress_errors | reflexivity].
Qed.

End Intersect.

(** The example lines are what the constructor builds. *)
Lemma line_constructed :
  let new (lat lon brg : Z) :=
    bearingline.__init__ (VNum (Int lat)) (VNum (Int lon)) (VNum (Int brg))
      (VNum (Int 0)) in
  (new 0 0 45 = Ok Examples.lineA /\
   new 0 10 315 = Ok Examples.lineB /\
   new 0 0 315 = Ok Examples.lineC /\
   new (-10) 0 0 = Ok Examples.lineS /\
   new (-10) 1 0 = Ok Examples.lineT)%Z.
Proof. repeat split; vm_compute; reflexivity. Qed.

Lemma identical_origins_witness :
  bearingline._intersect (L := RefLibm.libm) Examples.lineA Examples.lineC false
  = Raise IdenticalInputPointError.
Proof.
  apply (proj1 (identical_origins Examples.lineA Examples.lineC false)).
  vm_compute. reflexivity.
Defined.

(** Runs a computation and hands its value to the continuation. *)
Ltac with_value c k :=
  let v := eval vm_compute in c in
  lazymatch v with
  | Ok ?x => k x
  end.

Lemma degeneracy_order_witness :
  bearingline._intersect (L := RefLibm.libm) Examples.lineA Examples.lineB false
  = Ok (Some (0x1.3ec9d9d3458cdp+2, 5)%float).
Proof.
  with_value
    (bearingline.angles (L := RefLibm.libm)
       (bearingline.latitude_radians Examples.lineA)
       (- bearingline.longitude_radians Examples.lineA)%float
       (bearingline.true_bearing_radians Examples.lineA)
       (bearingline.latitude_radians Examples.lineB)
       (- bearingline.longitude_radians Examples.lineB)%float
       (bearingline.true_bearing_radians Examples.lineB))
    ltac:(fun a =>
      lazymatch a with
      | (?d, ?a1, ?a2) =>
          with_value (math_sin (L := RefLibm.libm) a1) ltac:(fun s1 =>
          with_value (math_sin (L := RefLibm.libm) a2) ltac:(fun s2 =>
            rewrite (degeneracy_order (L := RefLibm.libm)
                       Examples.lineA Examples.lineB false d a1 a2 s1 s2)))
      end);
    vm_compute; reflexivity.
Defined.

(** ** The policy layer [get_intersect] *)

Section Policy.
Context {L : Libm}.
Import _safe_math bearingline.

(** With no policy flag active the result of the raw solver is returned as
    it is. *)
Lemma get_intersect_inactive (self other : BearingLine)
  (suppress_greater_than : option num) (ignore_errors : bool) :
  any_policy false false suppress_greater_than = false ->
  get_intersect self other false false suppress_greater_than ignore_errors =
    (i <- _intersect self other ignore_errors ;;
     Ok (match i with
         | None => RNone
         | Some (lat, lon) => RTuple lat lon
         end)).
Proof.
  intros H. unfold get_intersect. now rewrite H.
Qed.

(** With a policy flag active and an intersection at hand, the three
    distances decide. *)
Lemma get_intersect_active (self other : BearingLine) (warn suppress : bool)
  (suppress_greater_than : option num) (ignore_errors : bool)
  (lat lon d1 d2 d12 : float) :
  any_policy warn suppress suppress_greater_than = true ->
  _intersect self other ignore_errors = Ok (Some (lat, lon)) ->
  get_haversine_distance self (VNum (Flt lat)) (VNum (Flt lon)) VNone = Ok d1 ->
  get_haversine_distance other (VNum (Flt lat)) (VNum (Flt lon)) VNone = Ok d2 ->
  get_haversine_distance self VNone VNone (VObj (ILine other)) = Ok d12 ->
  get_intersect self other warn suppress suppress_greater_than ignore_errors =
    if exceeds (max2 (Flt d1) (Flt d2)) suppress_greater_than then Ok RNone
    else if probably_diverge d1 d2 d12 then
      if suppress then Ok RNone
      else if warn then Raise ProbableDivergenceError
      else as_Point lat lon
    else as_Point lat lon.
Proof.
  intros Hp Hi H1 H2 H12. unfold get_intersect.
  rewrite Hi, Hp. cbn [bind negb]. rewrite H1, H2, H12. reflexivity.
Qed.

(** C3 (the code at the failing input).  With the three policy flags
    inactive, an intersection found by the raw solver comes back as the bare
    [(lat, lon)] tuple, not as a [Point]. *)
Theorem inactive_flags_return_tuple (self other : BearingLine) (ignore_errors : bool)
  (lat lon : float) :
  _intersect self other ignore_errors = Ok (Some (lat, lon)) ->
  get_intersect self other false false None ignore_errors = Ok (RTuple lat lon).
Proof.
  intros H. rewrite get_intersect_inactive by reflexivity. now rewrite H.
Qed.

(** With a policy flag active, a successful result other than [None] is a
    [Point] holding the coordinates of the raw solver. *)
Lemma active_flags_return_Point (self other : BearingLine) (warn suppress : bool)
  (suppress_greater_than : option num) (ignore_errors : bool) (r : intersection) :
  any_policy warn suppress suppress_greater_than = true ->
  get_intersect self other warn suppress suppress_greater_than ignore_errors = Ok r ->
  r = RNone \/
  exists lat lon,
    _intersect self other ignore_errors = Ok (Some (lat, lon)) /\
    r = RPoint (point.mkPoint (Flt lat) (Flt lon)).
Proof.
  intros Hp H. unfold get_intersect in H. rewrite Hp in H. cbn [negb] in H.
  apply bind_Ok_inv in H as ([[lat lon]|] & Hi & H).
  2:{ left. congruence. }
  apply bind_Ok_inv in H as (d1 & _ & H).
  apply bind_Ok_inv in H as (d2 & _ & H).
  apply bind_Ok_inv in H as (d12 & _ & H).
  assert (HP : forall r', as_Point lat lon = Ok r' ->
                 r' = RPoint (point.mkPoint (Flt lat) (Flt lon))).
  { intros r' E. unfold as_Point in E.
    apply bind_Ok_inv in E as (p & Ep & E). injection E as <-. f_equal.
    unfold point.__init__ in Ep.
    apply bind_Ok_inv in Ep as (la & Ela & Ep).
    apply bind_Ok_inv in Ep as (lo & Elo & Ep). injection Ep as <-.
    unfold point.latitude_setter, point.longitude_setter, point.validated in Ela, Elo.
    cbn [as_number] in Ela, Elo.
    destruct (negb (point.between (-90) (Flt lat) 90)); [discriminate|].
    destruct (negb (point.between (-180) (Flt lon) 180)); [discriminate|].
    congruence. }
  destruct (exceeds _ _); [left; congruence|].
  destruct (probably_diverge _ _ _).
  - destruct suppress; [left; congruence|].
    destruct warn; [discriminate|]. right. exists lat, lon. auto.
  - right. exists lat, lon. auto.
Qed.

(** C4 (the code at the failing input).  A cap of zero counts as no cap when
    the two other flags are off: the tuple is returned although the larger
    distance exceeds the cap. *)
Theorem zero_cap_ignored (self other : BearingLine) (ignore_errors : bool)
  (n : num) (lat lon d1 d2 : float) :
  _intersect self other ignore_errors = Ok (Some (lat, lon)) ->
  get_haversine_distance self (VNum (Flt lat)) (VNum (Flt lon)) VNone = Ok d1 ->
  get_haversine_distance other (VNum (Flt lat)) (VNum (Flt lon)) VNone = Ok d2 ->
  truthy n = false ->
  num_gtb (max2 (Flt d1) (Flt d2)) n = true ->
  get_intersect self other false false (Some n) ignore_errors = Ok (RTuple lat lon).
Proof.
  intros Hi _ _ Hn _. rewrite get_intersect_inactive.
  - now rewrite Hi.
  - unfold any_policy. now rewrite Hn.
Qed.

(** With a policy flag active, an intersection beyond the cap gives [None]. *)
Lemma cap_exceeded (self other : BearingLine) (warn suppress : bool)
  (n : num) (ignore_errors : bool) (lat lon d1 d2 d12 : float) :
  any_policy warn suppress (Some n) = true ->
  _intersect self other ignore_errors = Ok (Some (lat, lon)) ->
  get_haversine_distance self (VNum (Flt lat)) (VNum (Flt lon)) VNone = Ok d1 ->
  get_haversine_distance other (VNum (Flt lat)) (VNum (Flt lon)) VNone = Ok d2 ->
  get_haversine_distance self VNone VNone (VObj (ILine other)) = Ok d12 ->
  num_gtb (max2 (Flt d1) (Flt d2)) n = true ->
  get_intersect self other warn suppress (Some n) ignore_errors = Ok RNone.
Proof.
  intros Hp Hi H1 H2 H12 Hx.
  rewrite (get_intersect_active _ _ _ _ _ _ _ _ _ _ _ Hp Hi H1 H2 H12).
  cbn [exceeds]. now rewrite Hx.
Qed.

(** The probable-divergence branch, for every setting of the flags. *)
Lemma probable_divergence_policy (self other : BearingLine) (warn suppress : bool)
  (suppress_greater_than : option num) (ignore_errors : bool)
  (lat lon d1 d2 d12 : float) :
  _intersect self other ignore_errors = Ok (Some (lat, lon)) ->
  get_haversine_distance self (VNum (Flt lat)) (VNum (Flt lon)) VNone = Ok d1 ->
  get_haversine_distance other (VNum (Flt lat)) (VNum (Flt lon)) VNone = Ok d2 ->
  get_haversine_distance self VNone VNone (VObj (ILine other)) = Ok d12 ->
  exceeds (max2 (Flt d1) (Flt d2)) suppress_greater_than = false ->
  probably_diverge d1 d2 d12 = true ->
  get_intersect self other warn suppress suppress_greater_than ignore_errors =
    if suppress then Ok RNone
    else if warn then Raise ProbableDivergenceError
    else if any_policy false false suppress_greater_than then as_Point lat lon
    else Ok (RTuple lat lon).
Proof.
  intros Hi H1 H2 H12 Hx Hd.
  destruct (any_policy warn suppress suppress_greater_than) eqn:Hp.
  - rewrite (get_intersect_active _ _ _ _ _ _ _ _ _ _ _ Hp Hi H1 H2 H12), Hx, Hd.
    destruct suppress; [reflexivity|]. destruct warn; [reflexivity|].
    now rewrite Hp.
  - destruct warn; [discriminate|]. destruct suppress; [discriminate|].
    rewrite Hp. rewrite get_intersect_inactive by exact Hp. now rewrite Hi.
Qed.

(** C5 (the code at the failing input).  In the probable-divergence case with
    neither flag set and no cap, the bare tuple is returned, not a [Point]. *)
Theorem divergence_unflagged_returns_tuple (self other : BearingLine)
  (ignore_errors : bool) (lat lon d1 d2 d12 : float) :
  _intersect self other ignore_errors = Ok (Some (lat, lon)) ->
  get_haversine_distance self (VNum (Flt lat)) (VNum (Flt lon)) VNone = Ok d1 ->
  get_haversine_distance other (VNum (Flt lat)) (VNum (Flt lon)) VNone = Ok d2 ->
  get_haversine_distance self VNone VNone (VObj (ILine other)) = Ok d12 ->
  probably_diverge d1 d2 d12 = true ->
  get_intersect self other false false None ignore_errors = Ok (RTuple lat lon).
Proof.
  intros Hi H1 H2 H12 Hd.
  now rewrite (probable_divergence_policy self other false false None _ _ _ _ _ _
                 Hi H1 H2 H12 eq_refl Hd).
Qed.

(** [_intersect] never raises [ProbableDivergenceError]. *)
Lemma intersect_not_divergence_error (self other : BearingLine) (ignore_errors : bool) :
  _intersect self other ignore_errors <> Raise ProbableDivergenceError.
Proof.
  intros E. destruct (same_origin self other) eqn:H.
  - rewrite (intersect_same_origin _ _ _ H) in E. now destruct ignore_errors.
  - destruct (intersect_distinct_Raise _ _ _ _ H E) as [B | (_ & [B | B])];
      discriminate.
Qed.

(** [ProbableDivergenceError] is raised only on request and only in the
    probable-divergence case. *)
Lemma divergence_error_only_when (self other : BearingLine) (warn suppress : bool)
  (suppress_greater_than : option num) (ignore_errors : bool) :
  get_intersect self other warn suppress suppress_greater_than ignore_errors
  = Raise ProbableDivergenceError ->
  warn = true /\ suppress = false /\
  exists lat lon d1 d2 d12,
    _intersect self other ignore_errors = Ok (Some (lat, lon)) /\
    get_haversine_distance self (VNum (Flt lat)) (VNum (Flt lon)) VNone = Ok d1 /\
    get_haversine_distance other (VNum (Flt lat)) (VNum (Flt lon)) VNone = Ok d2 /\
    get_haversine_distance self VNone VNone (VObj (ILine other)) = Ok d12 /\
    exceeds (max2 (Flt d1) (Flt d2)) suppress_greater_than = false /\
    probably_diverge d1 d2 d12 = true.
Proof.
  intros E. unfold get_intersect in E.
  apply bind_Raise_inv in E as [E | (i & Hi & E)].
  { now apply intersect_not_divergence_error in E. }
  destruct (negb (any_policy warn suppress suppress_greater_than)); [discriminate|].
  destruct i as [[lat lon]|]; [|discriminate].
  assert (HP : as_Point lat lon <> Raise ProbableDivergenceError).
  { intros E'. unfold as_Point in E'.
    apply bind_Raise_inv in E' as [E' | (p & _ & E')]; [|discriminate].
    apply plain_Point_init in E'. discriminate. }
  apply bind_Raise_inv in E as [E | (d1 & H1 & E)].
  { apply plain_get_haversine_distance in E. discriminate. }
  apply bind_Raise_inv in E as [E | (d2 & H2 & E)].
  { apply plain_get_haversine_distance in E. discriminate. }
  apply bind_Raise_inv in E as [E | (d12 & H12 & E)].
  { apply plain_get_haversine_distance in E. discriminate. }
  destruct (exceeds _ _) eqn:Hx; [discriminate|].
  destruct (probably_diverge _ _ _) eqn:Hd; [|contradiction].
  destruct suppress; [discriminate|].
  destruct warn; [|contradiction].
  repeat split. exists lat, lon, d1, d2, d12. auto 10.
Qed.

End Policy.

Lemma inactive_flags_return_tuple_witness :
  bearingline.get_intersect (L := RefLibm.libm) Examples.lineA Examples.lineB
    false false None false
  = Ok (bearingline.RTuple 0x1.3ec9d9d3458cdp+2 5).
Proof.
  apply (inactive_flags_return_tuple (L := RefLibm.libm)).
  vm_compute. reflexivity.
Defined.

Lemma zero_cap_ignored_witness :
  bearingline.get_intersect (L := RefLibm.libm) Examples.lineA Examples.lineB
    false false (Some (Int 0)) false
  = Ok (bearingline.RTuple 0x1.3ec9d9d3458cdp+2 5).
Proof.
  with_value
    (bearingline.get_haversine_distance (L := RefLibm.libm) Examples.lineA
       (VNum (Flt 0x1.3ec9d9d3458cdp+2)) (VNum (Flt 5)) VNone)
    ltac:(fun d1 =>
  with_value
    (bearingline.get_haversine_distance (L := RefLibm.libm) Examples.lineB
       (VNum (Flt 0x1.3ec9d9d3458cdp+2)) (VNum (Flt 5)) VNone)
    ltac:(fun d2 =>
      apply (zero_cap_ignored (L := RefLibm.libm) Examples.lineA Examples.lineB
               false (Int 0) _ _ d1 d2)));
    vm_compute; reflexivity.
Defined.

Lemma divergence_unflagged_returns_tuple_witness :
  bearingline.get_intersect (L := RefLibm.libm) Examples.lineS Examples.lineT
    false false None false
  = Ok (bearingline.RTuple 90 180).
Proof.
  with_value
    (bearingline.get_haversine_distance (L := RefLibm.libm) Examples.lineS
       (VNum (Flt 90)) (VNum (Flt 180)) VNone)
    ltac:(fun d1 =>
  with_value
    (bearingline.get_haversine_distance (L := RefLibm.libm) Examples.lineT
       (VNum (Flt 90)) (VNum (Flt 180)) VNone)
    ltac:(fun d2 =>
  with_value
    (bearingline.get_haversine_distance (L := RefLibm.libm) Examples.lineS
       VNone VNone (VObj (bearingline.ILine Examples.lineT)))
    ltac:(fun d12 =>
      apply (divergence_unflagged_returns_tuple (L := RefLibm.libm)
               Examples.lineS Examples.lineT false _ _ d1 d2 d12))));
    vm_compute; reflexivity.
Defined.

(** On the same two meridians the default flags raise, and suppression
    returns [None]: the heuristic holds for them. *)
Example meridians_diverge :
  bearingline.get_intersect (L := RefLibm.libm) Examples.lineS Examples.lineT
    true false None false = Raise ProbableDivergenceError
  /\ bearingline.get_intersect (L := RefLibm.libm) Examples.lineS Examples.lineT
    false true None false = Ok bearingline.RNone.
Proof. split; vm_compute; reflexivity. Qed.

(** ** Validated fields and construction *)

Lemma validated_Ok {O : Type} (lo hi : Z) (v : value O) (n : num) :
  point.validated lo hi v = Ok n -> v = VNum n /\ point.between lo n hi = true.
Proof.
  unfold point.validated. destruct v as [|m|s|o]; simpl; try discriminate.
  destruct (point.between lo m hi) eqn:B; simpl; [|discriminate].
  intros H; injection H as <-. split; [reflexivity | exact B].
Qed.

Lemma validated_num {O : Type} (lo hi : Z) (n : num) :
  point.validated (O := O) lo hi (VNum n)
  = if point.between lo n hi then Ok n else Raise ValueError.
Proof. unfold point.validated. simpl. now destruct (point.between lo n hi). Qed.

(** A validated number converts to a float without overflow. *)
Lemma between_to_float (lo hi : Z) (n : num) :
  (-1000 <= lo)%Z -> (hi <= 1000)%Z ->
  point.between lo n hi = true -> exists f, to_float n = Ok f.
Proof.
  intros Hlo Hhi H. destruct n as [z|f]; [|now exists f].
  unfold point.between in H. simpl in H.
  apply andb_prop in H as [H1 H2].
  apply Z.leb_le in H1, H2.
  exists (Z2float z). apply int_to_float_small. lia.
Qed.

Lemma between_bearing (b : num) : point.between 0 b 360 = true <-> bearing_valid b.
Proof.
  unfold point.between. destruct b as [z|f]; simpl.
  - rewrite andb_true_iff, !Z.leb_le. tauto.
  - change (num_leb (Int 0) (Flt f)) with (0 <=? f)%float.
    change (num_leb (Flt f) (Int 360)) with (f <=? 360)%float.
    now rewrite andb_true_iff.
Qed.

(** C6 (as amended).  With the other fields valid, construction succeeds
    exactly for the bearings of the closed interval from 0 to 360, and fails
    validation for every other number. *)
Theorem bearing_range_closed (lat lon decl : bearingline.pyobj) (la lo d b : num) :
  bearingline.latitude_setter lat = Ok la ->
  bearingline.longitude_setter lon = Ok lo ->
  bearingline.declination_setter decl = Ok d ->
  (bearing_valid b ->
   exists bl, bearingline.__init__ lat lon (VNum b) decl = Ok bl /\
              bearingline.bearing bl = b)
  /\
  (~ bearing_valid b ->
   bearingline.__init__ lat lon (VNum b) decl = Raise ValueError).
Proof.
  intros Hla Hlo Hd. unfold bearingline.__init__. rewrite Hla, Hlo, Hd. cbn [bind].
  apply validated_Ok in Hla as [_ Bla], Hlo as [_ Blo], Hd as [_ Bd].
  destruct (between_to_float (-90) 90 la ltac:(lia) ltac:(lia) Bla) as (fla & Ela).
  destruct (between_to_float (-180) 180 lo ltac:(lia) ltac:(lia) Blo) as (flo & Elo).
  destruct (between_to_float (-180) 180 d ltac:(lia) ltac:(lia) Bd) as (fd & Ed).
  unfold math_radians. rewrite Ela, Elo. cbn [bind].
  unfold bearingline.bearing_setter. rewrite validated_num.
  split.
  - intros Hb. apply between_bearing in Hb as Bb. rewrite Bb. cbn [bind].
    destruct (between_to_float 0 360 b ltac:(lia) ltac:(lia) Bb) as (fb & Eb).
    assert (Hadd : exists tb ftb, num_add b d = Ok tb /\ to_float tb = Ok ftb).
    { unfold num_add, num_arith. destruct b as [zb|xb], d as [zd|xd].
      - exists (Int (zb + zd)), (Z2float (zb + zd)). split; [reflexivity|].
        unfold point.between in Bb, Bd. simpl in Bb, Bd.
        apply andb_prop in Bb as [B1 B2], Bd as [B3 B4].
        apply Z.leb_le in B1, B2, B3, B4.
        apply int_to_float_small. lia.
      - rewrite Eb. simpl. eexists _, _. split; reflexivity.
      - rewrite Ed. simpl. eexists _, _. split; reflexivity.
      - simpl. eexists _, _. split; reflexivity. }
    destruct Hadd as (tb & ftb & Eadd & Etb). rewrite Eadd. cbn [bind].
    rewrite Etb. cbn [bind].
    eexists. split; reflexivity.
  - intros Hb. destruct (point.between 0 b 360) eqn:Bb; [|reflexivity].
    apply between_bearing in Bb. contradiction.
Qed.

Lemma bearing_range_closed_witness :
  exists bl,
    bearingline.__init__ (VNum (Int 0)) (VNum (Int 10)) (VNum (Int 315)) (VNum (Int 0))
    = Ok bl /\ bearingline.bearing bl = Int 315.
Proof.
  apply (proj1 (bearing_range_closed (VNum (Int 0)) (VNum (Int 10)) (VNum (Int 0))
                  (Int 0) (Int 10) (Int 0) (Int 315) eq_refl eq_refl eq_refl)).
  simpl. lia.
Defined.

(** C6 (as stated) fails: a bearing of 360 is outside [0, 360) and
    construction succeeds, for the integer and for the float. *)
Lemma bearing_360_accepted :
  bearingline.__init__ (VNum (Int 0)) (VNum (Int 0)) (VNum (Int 360)) (VNum (Int 0))
  = Ok (Examples.line 0 0 360)
  /\ exists bl,
       bearingline.__init__ (VNum (Int 0)) (VNum (Int 0)) (VNum (Flt 360)) (VNum (Int 0))
       = Ok bl /\ bearingline.bearing bl = Flt 360.
Proof.
  split; [vm_compute; reflexivity|].
  eexists. split; vm_compute; reflexivity.
Qed.

(** ** The argument shapes of [get_haversine_distance] *)

Section Shapes.
Context {L : Libm}.
Import bearingline.

(** With [other] given and exactly one coordinate, no branch is taken. *)
Lemma bind_points_fallthrough (self : BearingLine) (lat2 lon2 other : pyobj) :
  is_None other = false ->
  one_coordinate lat2 lon2 = true ->
  bind_points self lat2 lon2 other = Ok None.
Proof.
  unfold bind_points, one_coordinate. intros -> H.
  destruct (is_None lat2), (is_None lon2); simpl in *; try discriminate; reflexivity.
Qed.

(** In every other shape a branch is taken: it binds the four locals or
    raises one of three errors. *)
Lemma bind_points_taken (self : BearingLine) (lat2 lon2 other : pyobj) :
  negb (is_None other) && one_coordinate lat2 lon2 = false ->
  (exists env, bind_points self lat2 lon2 other = Ok (Some env)) \/
  (exists e, bind_points self lat2 lon2 other = Raise e /\
             (e = TypeError \/ e = ValueError \/ e = SyntaxError)).
Proof.
  unfold bind_points, one_coordinate. intros H.
  assert (Hnum : forall la lo : pyobj,
    (exists env,
       match as_number la, as_number lo with
       | Some a, Some o =>
           if negb (point.between (-90) a 90 && point.between (-180) o 180)
           then Raise ValueError
           else
             la_r <- math_radians a ;;
             lo_r <- math_radians o ;;
             Ok (Some (latitude_radians self, longitude_radians self, la_r, lo_r))
       | _, _ => Raise TypeError
       end = Ok (Some env)) \/
    (exists e,
       match as_number la, as_number lo with
       | Some a, Some o =>
           if negb (point.between (-90) a 90 && point.between (-180) o 180)
           then Raise ValueError
           else
             la_r <- math_radians a ;;
             lo_r <- math_radians o ;;
             Ok (Some (latitude_radians self, longitude_radians self, la_r, lo_r))
       | _, _ => Raise TypeError
       end = Raise e /\ (e = TypeError \/ e = ValueError \/ e = SyntaxError))).
  { intros la lo.
    destruct (as_number la) as [a|]; [|right; exists TypeError; auto].
    destruct (as_number lo) as [o|]; [|right; exists TypeError; auto].
    destruct (point.between (-90) a 90) eqn:Ba; cbn [andb negb];
      [|right; exists ValueError; auto].
    destruct (point.between (-180) o 180) eqn:Bo; cbn [andb negb];
      [|right; exists ValueError; auto].
    destruct (between_to_float (-90) 90 a ltac:(lia) ltac:(lia) Ba) as (fa & Ea).
    destruct (between_to_float (-180) 180 o ltac:(lia) ltac:(lia) Bo) as (fo & Eo).
    left. unfold math_radians. rewrite Ea, Eo. cbn [bind]. eauto. }
  specialize (Hnum lat2 lon2).
  destruct (is_None other), (is_None lat2), (is_None lon2);
    cbn [negb andb xorb] in *; try discriminate; try exact Hnum.
  - right. exists SyntaxError. auto.
  - destruct (as_BearingLine other); [left; eauto | right; exists TypeError; auto].
  - right. exists SyntaxError. auto.
Qed.

(** C10.  With [other] given (a [BearingLine], say) and exactly one of
    [lat2], [lon2], none of the four branches applies: nothing is raised or
    validated there, and the formula reads the unassigned [lat1].  In every
    other shape the distance is computed from four bound locals, or a type,
    value or argument-shape error is raised before any computation. *)
Theorem haversine_argument_shapes (self : BearingLine) (lat2 lon2 other : pyobj) :
  (is_None other = false -> one_coordinate lat2 lon2 = true ->
   bind_points self lat2 lon2 other = Ok None /\
   get_haversine_distance self lat2 lon2 other = Raise UnboundLocalError)
  /\
  (negb (is_None other) && one_coordinate lat2 lon2 = false ->
   (exists env,
      bind_points self lat2 lon2 other = Ok (Some env) /\
      get_haversine_distance self lat2 lon2 other = distance_of (Some env))
   \/
   (exists e,
      bind_points self lat2 lon2 other = Raise e /\
      get_haversine_distance self lat2 lon2 other = Raise e /\
      (e = TypeError \/ e = ValueError \/ e = SyntaxError))).
Proof.
  unfold get_haversine_distance. split.
  - intros Ho H. rewrite (bind_points_fallthrough _ _ _ _ Ho H). auto.
  - intros H. destruct (bind_points_taken self _ _ _ H) as [(env & E) | (e & E & He)].
    + left. exists env. rewrite E. auto.
    + right. exists e. rewrite E. auto.
Qed.

End Shapes.

Lemma haversine_argument_shapes_witness :
  bearingline.get_haversine_distance (L := RefLibm.libm) Examples.lineA
    (VNum (Int 5)) VNone (VObj (bearingline.ILine Examples.lineB))
  = Raise UnboundLocalError.
Proof.
  apply (proj1 (haversine_argument_shapes (L := RefLibm.libm) Examples.lineA
                  (VNum (Int 5)) VNone (VObj (bearingline.ILine Examples.lineB))));
    reflexivity.
Defined.

(** The other shapes, on the example lines. *)
Example haversine_shapes_run :
  bearingline.get_haversine_distance (L := RefLibm.libm) Examples.lineA
    VNone VNone VNone = Raise SyntaxError
  /\ bearingline.get_haversine_distance (L := RefLibm.libm) Examples.lineA
    (VNum (Int 1)) (VNum (Int 2)) (VObj (bearingline.ILine Examples.lineB))
    = Raise SyntaxError
  /\ bearingline.get_haversine_distance (L := RefLibm.libm) Examples.lineA
    (VNum (Int 1)) VNone VNone = Raise TypeError
  /\ bearingline.get_haversine_distance (L := RefLibm.libm) Examples.lineA
    (VNum (Int 91)) (VNum (Int 2)) VNone = Raise ValueError
  /\ bearingline.get_haversine_distance (L := RefLibm.libm) Examples.lineA
    VNone VNone (VStr "line") = Raise TypeError
  /\ bearingline.get_haversine_distance (L := RefLibm.libm) Examples.lineA
    (VNum (Int 1)) VNone (VStr "line") = Raise UnboundLocalError.
Proof. repeat split; vm_compute; reflexivity. Qed.

(** ** [asin_safe] and [acos_safe] *)

Lemma Prim2SF_one : Prim2SF 1 = S754_finite false 4503599627370496 (-52).
Proof. vm_compute. reflexivity. Qed.

Lemma Prim2SF_minus_one : Prim2SF (-1) = S754_finite true 4503599627370496 (-52).
Proof. vm_compute. reflexivity. Qed.

Lemma float_below_minus_one (f : float) :
  (f <? -1)%float = true -> (1 <? f)%float = false /\ (-1 <? f)%float = false.
Proof.
  rewrite !ltb_spec, Prim2SF_one, Prim2SF_minus_one.
  unfold SFltb. destruct (Prim2SF f) as [s|s| |s m e]; cbn [SFcompare]; try discriminate.
  - destruct s; [auto | discriminate].
  - destruct s; [|discriminate].
    rewrite (Z.compare_antisym e (-52)), (compare_cont_swap m 4503599627370496).
    destruct (e ?= -52)%Z; cbn [CompOpp]; try discriminate; auto.
    destruct (Pos.compare_cont Eq m 4503599627370496); cbn [CompOpp];
      try discriminate; auto.
Qed.

Lemma clamp_above (x : num) : num_gtb x (Int 1) = true -> _safe_math.clamp x = Int 1.
Proof.
  unfold _safe_math.clamp, min2, max2, num_gtb. cbn [min_from max_from].
  now intros ->.
Qed.

Lemma clamp_below (x : num) : num_ltb x (Int (-1)) = true -> _safe_math.clamp x = Int (-1).
Proof.
  unfold _safe_math.clamp, min2, max2, num_gtb. cbn [min_from max_from].
  destruct x as [z|f]; intros H.
  - simpl in H. apply Z.ltb_lt in H. simpl.
    destruct (1 <? z)%Z eqn:E1; [apply Z.ltb_lt in E1; lia|].
    simpl. destruct (-1 <? z)%Z eqn:E2; [apply Z.ltb_lt in E2; lia | reflexivity].
  - change (num_ltb (Flt f) (Int (-1))) with (f <? -1)%float in H.
    destruct (float_below_minus_one f H) as [H1 H2].
    change (num_ltb (Int 1) (Flt f)) with (1 <? f)%float. rewrite H1.
    cbv beta iota.
    change (num_gtb (Flt f) (Int (-1))) with (-1 <? f)%float. now rewrite H2.
Qed.

(** The clamped value is a float between -1 and 1, whatever [x] is. *)
Lemma clamp_range (x : num) :
  exists a, to_float (_safe_math.clamp x) = Ok a /\
            (-1 <=? a)%float = true /\ (a <=? 1)%float = true.
Proof.
  unfold _safe_math.clamp, min2, max2, num_gtb. cbn [min_from max_from].
  destruct x as [z|f].
  - simpl. destruct (1 <? z)%Z eqn:E1.
    + exists 1%float. repeat split; vm_compute; reflexivity.
    + apply Z.ltb_ge in E1. simpl. destruct (-1 <? z)%Z eqn:E2.
      * apply Z.ltb_lt in E2.
        assert (Hz : z = 0%Z \/ z = 1%Z) by lia.
        destruct Hz as [-> | ->]; [exists 0%float | exists 1%float];
          repeat split; vm_compute; reflexivity.
      * exists (-1)%float. repeat split; vm_compute; reflexivity.
  - change (num_ltb (Int 1) (Flt f)) with (1 <? f)%float.
    destruct (1 <? f)%float eqn:E1; cbv beta iota.
    + exists 1%float. repeat split; vm_compute; reflexivity.
    + change (num_gtb (Flt f) (Int (-1))) with (-1 <? f)%float.
      destruct (-1 <? f)%float eqn:E2.
      * exists f. repeat split.
        -- now apply float_ltb_leb.
        -- exact (float_not_ltb_leb 1 f (-1) E2 eq_refl E1).
      * exists (-1)%float. repeat split; vm_compute; reflexivity.
Qed.

Section SafeMath.
Context {L : Libm}.
Import _safe_math.

(** A finite value of the C function is returned as it is. *)
Lemma math_1_finite (func : float -> float) (b : bool) (a : float) :
  is_finite (func a) = true -> math_1 func b a = Ok (func a).
Proof.
  unfold math_1, is_finite. intros F.
  apply negb_true_iff, orb_false_iff in F as [-> ->]. reflexivity.
Qed.

(** When the C functions are finite on [[-1, 1]], no input reaches the
    domain-error branch of [math.asin] and [math.acos]. *)
Lemma inverse_trig_total (x : num) :
  (forall a, (-1 <=? a)%float = true -> (a <=? 1)%float = true ->
     is_nan (c_asin a) = false /\ is_infinity (c_asin a) = false /\
     is_nan (c_acos a) = false /\ is_infinity (c_acos a) = false) ->
  (exists r, asin_safe x = Ok r) /\ (exists r, acos_safe x = Ok r).
Proof.
  intros H. destruct (clamp_range x) as (a & Ea & Hlo & Hhi).
  destruct (H a Hlo Hhi) as (N1 & I1 & N2 & I2).
  unfold asin_safe, acos_safe. rewrite Ea. cbn [bind].
  unfold math_asin, math_acos, math_1. rewrite N1, I1, N2, I2. simpl. eauto.
Qed.

(** C9.  The argument of the underlying arcsin and arccos always lies in
    [[-1, 1]], so the call is defined whenever the C function is finite
    there; above 1 the argument is 1 and below -1 it is -1.  With [asin(1)] the
    double nearest to pi/2 and [acos(-1)] the double [math.pi], as every C
    library returns them, [asin_safe(1.0000001)] is [math.pi / 2] and
    [acos_safe(-1.0000001)] is [math.pi]. *)
Theorem safe_inverse_trig (x : num) :
  c_asin 1 = pi_over_2 ->
  c_acos (-1) = math_pi ->
  (exists a, (-1 <=? a)%float = true /\ (a <=? 1)%float = true /\
             asin_safe x = math_asin a /\ acos_safe x = math_acos a /\
             (is_finite (c_asin a) = true -> asin_safe x = Ok (c_asin a)) /\
             (is_finite (c_acos a) = true -> acos_safe x = Ok (c_acos a)))
  /\
  (num_gtb x (Int 1) = true ->
   asin_safe x = math_asin 1 /\ asin_safe x = Ok pi_over_2 /\
   acos_safe x = math_acos 1)
  /\
  (num_ltb x (Int (-1)) = true ->
   asin_safe x = math_asin (-1) /\
   acos_safe x = math_acos (-1) /\ acos_safe x = Ok math_pi)
  /\
  asin_safe (Flt 0x1.000001ad7f29bp+0) = Ok pi_over_2
  /\
  acos_safe (Flt (-0x1.000001ad7f29bp+0)) = Ok math_pi.
Proof.
  intros Hasin Hacos.
  assert (A1 : math_asin 1 = Ok pi_over_2).
  { unfold math_asin, math_1. rewrite Hasin. reflexivity. }
  assert (A2 : math_acos (-1) = Ok math_pi).
  { unfold math_acos, math_1. rewrite Hacos. reflexivity. }
  assert (Up : forall y, num_gtb y (Int 1) = true ->
                 asin_safe y = math_asin 1 /\ asin_safe y = Ok pi_over_2 /\
                 acos_safe y = math_acos 1).
  { intros y Hy. unfold asin_safe, acos_safe. rewrite (clamp_above y Hy).
    change (to_float (Int 1)) with (Ok 1%float). cbn [bind]. auto. }
  assert (Down : forall y, num_ltb y (Int (-1)) = true ->
                   asin_safe y = math_asin (-1) /\
                   acos_safe y = math_acos (-1) /\ acos_safe y = Ok math_pi).
  { intros y Hy. unfold asin_safe, acos_safe. rewrite (clamp_below y Hy).
    change (to_float (Int (-1))) with (Ok (-1)%float). cbn [bind]. auto. }
  split; [|repeat split].
  - destruct (clamp_range x) as (a & Ea & Hlo & Hhi).
    exists a. unfold asin_safe, acos_safe. rewrite Ea. cbn [bind].
    repeat split; try assumption; intros F.
    + now apply math_1_finite.
    + now apply math_1_finite.
  - apply (Up x H).
  - apply (Up x H).
  - apply (Up x H).
  - apply (Down x H).
  - apply (Down x H).
  - apply (Down x H).
  - apply (Up (Flt 0x1.000001ad7f29bp+0)). vm_compute. reflexivity.
  - apply (Down (Flt (-0x1.000001ad7f29bp+0))). vm_compute. reflexivity.
Qed.

End SafeMath.

Lemma safe_inverse_trig_witness :
  _safe_math.asin_safe (L := RefLibm.libm) (Flt 0x1.000001ad7f29bp+0) = Ok pi_over_2
  /\ _safe_math.acos_safe (L := RefLibm.libm) (Flt (-0x1.000001ad7f29bp+0)) = Ok math_pi.
Proof.
  apply (safe_inverse_trig (L := RefLibm.libm) (Int 2)); vm_compute; reflexivity.
Defined.

(** ** [euclidean_modulo] *)

(** On integers the subtraction and the product are exact: the result is
    [y - x * n] for the floor [n] of the double quotient. *)
Lemma int_modulo_of_floor (y x n : Z) :
  (q <- num_truediv (Int y) (Int x) ;; math_floor q) = Ok n ->
  _safe_math.euclidean_modulo (Int y) (Int x) = Ok (Int (y - x * n)).
Proof.
  intros H. unfold _safe_math.euclidean_modulo.
  apply bind_Ok_inv in H as (q & -> & Hq). cbn [bind]. rewrite Hq. reflexivity.
Qed.

(** C8 (as amended).  For integers [y] and [x <> 0] whose double quotient
    has the floor of the exact quotient, [euclidean_modulo(y, x)] is
    [y - x * floor(y / x)], that is [y mod x]: it lies in [[0, x)] for
    [x > 0] and in [(x, 0]] for [x < 0]. *)
Theorem euclidean_modulo_int (y x : Z) :
  x <> 0%Z ->
  (q <- num_truediv (Int y) (Int x) ;; math_floor q) = Ok (y / x)%Z ->
  _safe_math.euclidean_modulo (Int y) (Int x) = Ok (Int (y - x * (y / x)))
  /\ (y - x * (y / x) = y mod x)%Z
  /\ ((0 < x)%Z -> (0 <= y mod x < x)%Z)
  /\ ((x < 0)%Z -> (x < y mod x <= 0)%Z).
Proof.
  intros Hx H. split; [exact (int_modulo_of_floor y x _ H)|].
  split; [rewrite Z.mod_eq by exact Hx; reflexivity|].
  split; intros Hs.
  - apply Z.mod_pos_bound. exact Hs.
  - apply Z.mod_neg_bound. exact Hs.
Qed.

Lemma euclidean_modulo_int_witness :
  _safe_math.euclidean_modulo (Int (-1)) (Int 3) = Ok (Int 2).
Proof.
  apply (proj1 (euclidean_modulo_int (-1) 3 ltac:(discriminate) eq_refl)).
Defined.

(** C8 (as stated) fails on floats: the subtraction rounds, and the result
    for a tiny negative dividend is the divisor itself, outside [[0, x)]. *)
Lemma euclidean_modulo_reaches_divisor :
  _safe_math.euclidean_modulo (Flt (-0x1p-70)) (Flt 3) = Ok (Flt 3)
  /\ num_ltb (Flt 3) (Flt 3) = false.
Proof. split; vm_compute; reflexivity. Qed.

(** It fails on large integers too: the quotient of [2^53 + 1] by 1 rounds
    to [2^53], and the result 1 is outside [[0, 1)]. *)
Example euclidean_modulo_large_int :
  _safe_math.euclidean_modulo (Int (2 ^ 53 + 1)) (Int 1) = Ok (Int 1).
Proof. vm_compute. reflexivity. Qed.

(** * Further properties *)

(** ** Suppression of errors *)

Section Suppression.
Context {L : Libm}.
Import _safe_math bearingline.

Lemma suppressed_builtin {A : Type} (none : A) (e : exn) :
  builtin e = true -> suppressed none (Raise e) = Raise e.
Proof. destruct e; simpl; intros H; try discriminate; reflexivity. Qed.

Lemma suppressed_plain {A : Type} (none : A) (c : M A) :
  plain c -> suppressed none c = c.
Proof.
  intros P. destruct c as [a|e]; [reflexivity|].
  apply suppressed_builtin. now apply P.
Qed.

(** X1.  [suppress_errors] changes the outcome of the raw solver only where
    one of its three own exceptions would be raised, which becomes [None];
    every other outcome, built-in exceptions included, is the same. *)
Theorem suppress_errors_only_degenerate (self other : BearingLine) :
  _intersect self other true = suppressed None (_intersect self other false).
Proof.
  destruct (same_origin self other) eqn:H.
  - now rewrite !(intersect_same_origin _ _ _ H).
  - rewrite !(intersect_distinct _ _ _ H).
    destruct (angles _ _ _ _ _ _) as [[[dst12 ang1] ang2]|e] eqn:Ha; cbn [bind].
    2:{ symmetry. apply suppressed_builtin. exact (plain_angles _ _ _ _ _ _ _ Ha). }
    destruct (both_sines_zero ang1 ang2) as [[|]|e] eqn:Hb; cbn [bind];
      [reflexivity | |
       symmetry; apply suppressed_builtin; exact (plain_both_sines_zero _ _ _ Hb)].
    destruct (sines_opposed ang1 ang2) as [[|]|e] eqn:Hs; cbn [bind];
      [reflexivity | |
       symmetry; apply suppressed_builtin; exact (plain_sines_opposed _ _ _ Hs)].
    destruct (solve _ _ _ _ _ _) as [p|e] eqn:Hp; cbn [bind]; [reflexivity|].
    symmetry. apply suppressed_builtin. exact (plain_solve _ _ _ _ _ _ _ Hp).
Qed.

(** X2.  Without suppression the raw solver never returns [None]: it
    returns a pair or raises. *)
Theorem intersect_unsuppressed_not_None (self other : BearingLine) :
  _intersect self other false <> Ok None.
Proof.
  destruct (same_origin self other) eqn:H.
  - rewrite (intersect_same_origin _ _ _ H). discriminate.
  - rewrite (intersect_distinct _ _ _ H). intros E.
    apply bind_Ok_inv in E as ([[dst12 ang1] ang2] & _ & E).
    apply bind_Ok_inv in E as (infinite & _ & E).
    destruct infinite; [discriminate|].
    apply bind_Ok_inv in E as (ambiguous & _ & E).
    destruct ambiguous; [discriminate|].
    apply bind_Ok_inv in E as (p & _ & E). discriminate.
Qed.

(** With suppression the raw solver raises built-in exceptions only. *)
Lemma intersect_suppressed_plain (self other : BearingLine) :
  plain (_intersect self other true).
Proof.
  intros e E. destruct (same_origin self other) eqn:H.
  - rewrite (intersect_same_origin _ _ _ H) in E. discriminate.
  - destruct (intersect_distinct_Raise _ _ _ _ H E) as [B | (B & _)];
      [exact B | discriminate].
Qed.

(** What [get_intersect] does after the raw solver has answered. *)
Lemma policy_after_solver (self other : BearingLine) (warn suppress : bool)
  (suppress_greater_than : option num) (ignore_errors : bool) (e : exn) :
  get_intersect self other warn suppress suppress_greater_than ignore_errors
  = Raise e ->
  _intersect self other ignore_errors = Raise e \/
  builtin e = true \/ e = ProbableDivergenceError.
Proof.
  intros E. unfold get_intersect in E.
  apply bind_Raise_inv in E as [E | (i & Hi & E)]; [now left | right].
  destruct (negb (any_policy warn suppress suppress_greater_than)); [discriminate|].
  destruct i as [[lat lon]|]; [|discriminate].
  assert (HP : plain (as_Point lat lon)).
  { unfold as_Point. apply plain_bind; [apply plain_Point_init | intro; apply plain_Ok]. }
  apply bind_Raise_inv in E as [E | (d1 & _ & E)].
  { left. exact (plain_get_haversine_distance _ _ _ _ _ E). }
  apply bind_Raise_inv in E as [E | (d2 & _ & E)].
  { left. exact (plain_get_haversine_distance _ _ _ _ _ E). }
  apply bind_Raise_inv in E as [E | (d12 & _ & E)].
  { left. exact (plain_get_haversine_distance _ _ _ _ _ E). }
  destruct (exceeds _ _); [discriminate|].
  destruct (probably_diverge _ _ _).
  - destruct suppress; [discriminate|]. destruct warn.
    + right. congruence.
    + left. exact (HP _ E).
  - left. exact (HP _ E).
Qed.

(** X3.  [ignore_errors] changes the outcome of [get_intersect] only where
    one of the three exceptions of the raw solver would be raised, which
    becomes [None]; in particular it silences neither
    [ProbableDivergenceError] nor a built-in exception. *)
Theorem ignore_errors_only_degenerate (self other : BearingLine) (warn suppress : bool)
  (suppress_greater_than : option num) :
  get_intersect self other warn suppress suppress_greater_than true
  = suppressed RNone
      (get_intersect self other warn suppress suppress_greater_than false).
Proof.
  destruct (get_intersect self other warn suppress suppress_greater_than false)
    as [r|e] eqn:F.
  - cbn [suppressed]. unfold get_intersect in *.
    rewrite suppress_errors_only_degenerate.
    apply bind_Ok_inv in F as (i & Hi & F). rewrite Hi. cbn [suppressed bind].
    exact F.
  - destruct (policy_after_solver _ _ _ _ _ _ _ F) as [Hi | [B | ->]].
    + unfold get_intersect in *. rewrite suppress_errors_only_degenerate, Hi.
      cbn [suppressed]. destruct (degenerate e) eqn:D; cbn [bind].
      * now destruct (negb (any_policy warn suppress suppress_greater_than)).
      * reflexivity.
    + rewrite (suppressed_builtin _ _ B).
      unfold get_intersect in *. rewrite suppress_errors_only_degenerate.
      destruct (_intersect self other false) as [i|e'] eqn:Hi.
      * cbn [suppressed bind] in *. exact F.
      * cbn [bind] in F. injection F as ->. now rewrite (suppressed_builtin _ _ B).
    + cbn [suppressed degenerate].
      unfold get_intersect in *. rewrite suppress_errors_only_degenerate.
      destruct (_intersect self other false) as [i|e'] eqn:Hi.
      * cbn [suppressed bind] in *. exact F.
      * cbn [bind] in F. injection F as ->. reflexivity.
Qed.

End Suppression.

(** ** Validated fields are finite *)

Lemma SFcompare_refl (x : spec_float) :
  x <> S754_nan -> SFcompare x x = Some Eq.
Proof.
  destruct x as [s|s| |s m e]; cbn [SFcompare]; intros H;
    try (destruct s; reflexivity); [congruence|].
  rewrite Z.compare_refl, Pos.compare_cont_refl. now destruct s.
Qed.

Lemma Prim2SF_infinity : Prim2SF infinity = S754_infinity false.
Proof. vm_compute. reflexivity. Qed.

(** A float between two finite floats is finite. *)
Lemma float_between_finite (a f b : float) :
  is_finite a = true -> is_finite b = true ->
  (a <=? f)%float = true -> (f <=? b)%float = true -> is_finite f = true.
Proof.
  unfold is_finite, is_nan, is_infinity.
  rewrite !leb_spec, !eqb_spec, !abs_spec, Prim2SF_infinity.
  unfold SFleb, SFeqb.
  destruct (Prim2SF a) as [sa|sa| |sa ma ea], (Prim2SF b) as [sb|sb| |sb mb eb],
    (Prim2SF f) as [sf|sf| |sf mf ef] eqn:Ef;
    cbn [SFabs SFcompare negb orb]; try discriminate; try reflexivity;
    try (destruct sa; discriminate); try (destruct sb; discriminate);
    try (destruct sf; discriminate);
    try (destruct sa, sf; discriminate); try (destruct sf, sb; discriminate);
    try (rewrite Z.compare_refl, Pos.compare_cont_refl; intros; now destruct sf).
  all: intros; destruct sf; cbn; try discriminate; try reflexivity;
    rewrite ?Z.compare_refl, ?Pos.compare_cont_refl; try reflexivity;
    try (destruct sa; discriminate); try (destruct sb; discriminate).
Qed.

(** A number within small integer bounds is finite. *)
Lemma between_finite (lo hi : Z) (n : num) :
  small_int lo = true -> small_int hi = true ->
  is_finite (Z2float lo) = true -> is_finite (Z2float hi) = true ->
  point.between lo n hi = true -> finite_num n = true.
Proof.
  intros Slo Shi Flo Fhi H. destruct n as [z|f]; [reflexivity|].
  unfold point.between in H. cbn [num_leb] in H. rewrite Slo, Shi in H.
  apply andb_prop in H as [H1 H2].
  exact (float_between_finite _ _ _ Flo Fhi H1 H2).
Qed.

Lemma between_latitude_finite (n : num) :
  point.between (-90) n 90 = true -> finite_num n = true.
Proof. apply between_finite; vm_compute; reflexivity. Qed.

Lemma between_longitude_finite (n : num) :
  point.between (-180) n 180 = true -> finite_num n = true.
Proof. apply between_finite; vm_compute; reflexivity. Qed.

(** ** Construction of points and lines *)

(** X4.  A constructed [Point] holds the two arguments, which are numbers
    within [-90, 90] and [-180, 180] and finite: no [nan] or infinity gets
    in. *)
Theorem point_constructed {O : Type} (latitude longitude : value O) (p : point.Point) :
  point.__init__ latitude longitude = Ok p ->
  latitude = VNum (point.latitude p) /\
  longitude = VNum (point.longitude p) /\
  valid_point p /\
  finite_num (point.latitude p) = true /\
  finite_num (point.longitude p) = true.
Proof.
  unfold point.__init__, point.latitude_setter, point.longitude_setter.
  intros H.
  apply bind_Ok_inv in H as (la & Hla & H).
  apply bind_Ok_inv in H as (lo & Hlo & H). injection H as <-.
  apply validated_Ok in Hla as [-> Bla], Hlo as [-> Blo]. cbn.
  repeat split; try assumption.
  - now apply between_latitude_finite.
  - now apply between_longitude_finite.
Qed.

Lemma point_constructed_witness :
  VNum (O := bearingline.instance) (Int 90) = VNum (Int 90) /\
  VNum (O := bearingline.instance) (Flt (-180)) = VNum (Flt (-180)) /\
  valid_point (point.mkPoint (Int 90) (Flt (-180))) /\
  finite_num (Int 90) = true /\ finite_num (Flt (-180)) = true.
Proof.
  apply (point_constructed (O := bearingline.instance)
           (VNum (Int 90)) (VNum (Flt (-180))) (point.mkPoint (Int 90) (Flt (-180)))).
  vm_compute. reflexivity.
Defined.

(** Adding two validated fields and converting the sum cannot overflow. *)
Lemma true_bearing_defined (b d : num) :
  point.between 0 b 360 = true -> point.between (-180) d 180 = true ->
  exists tb ftb, num_add b d = Ok tb /\ to_float tb = Ok ftb.
Proof.
  intros Bb Bd.
  destruct (between_to_float 0 360 b ltac:(lia) ltac:(lia) Bb) as (fb & Eb).
  destruct (between_to_float (-180) 180 d ltac:(lia) ltac:(lia) Bd) as (fd & Ed).
  unfold num_add, num_arith. destruct b as [zb|xb], d as [zd|xd].
  - exists (Int (zb + zd)), (Z2float (zb + zd)). split; [reflexivity|].
    unfold point.between in Bb, Bd. simpl in Bb, Bd.
    apply andb_prop in Bb as [B1 B2], Bd as [B3 B4].
    apply Z.leb_le in B1, B2, B3, B4.
    apply int_to_float_small. lia.
  - rewrite Eb. simpl. eexists _, _. split; reflexivity.
  - rewrite Ed. simpl. eexists _, _. split; reflexivity.
  - simpl. eexists _, _. split; reflexivity.
Qed.

(** X5.  A constructed [BearingLine] holds its four arguments, each within
    its range, and its derived fields are those of the arguments:
    [true_bearing] is [bearing + declination] (not reduced modulo 360) and the
    three [..._radians] are [math.radians] of latitude, longitude and true
    bearing. *)
Theorem line_constructed_consistent (latitude longitude bearing declination
  : bearingline.pyobj) (bl : bearingline.BearingLine) :
  bearingline.__init__ latitude longitude bearing declination = Ok bl ->
  latitude = VNum (bearingline.latitude bl) /\
  longitude = VNum (bearingline.longitude bl) /\
  bearing = VNum (bearingline.bearing bl) /\
  declination = VNum (bearingline.declination bl) /\
  consistent bl.
Proof.
  unfold bearingline.__init__, bearingline.latitude_setter,
    bearingline.longitude_setter, bearingline.bearing_setter,
    bearingline.declination_setter.
  intros H.
  apply bind_Ok_inv in H as (la & Hla & H).
  apply bind_Ok_inv in H as (lo & Hlo & H).
  apply bind_Ok_inv in H as (lar & Hlar & H).
  apply bind_Ok_inv in H as (lor & Hlor & H).
  apply bind_Ok_inv in H as (b & Hb & H).
  apply bind_Ok_inv in H as (d & Hd & H).
  apply bind_Ok_inv in H as (tb & Htb & H).
  apply bind_Ok_inv in H as (tbr & Htbr & H). injection H as <-.
  apply validated_Ok in Hla as [-> Bla], Hlo as [-> Blo], Hb as [-> Bb], Hd as [-> Bd].
  unfold consistent. cbn. repeat split; assumption.
Qed.

Lemma line_constructed_consistent_witness : consistent Examples.lineB.
Proof.
  apply (line_constructed_consistent (VNum (Int 0)) (VNum (Int 10)) (VNum (Int 315))
           (VNum (Int 0)) Examples.lineB).
  vm_compute. reflexivity.
Defined.

(** X6.  Constructing a [BearingLine] raises nothing but [TypeError] and
    [ValueError]: the sum [bearing + declination] and the three conversions
    to radians cannot overflow on validated fields. *)
Theorem line_init_errors (latitude longitude bearing declination : bearingline.pyobj)
  (e : exn) :
  bearingline.__init__ latitude longitude bearing declination = Raise e ->
  e = TypeError \/ e = ValueError.
Proof.
  assert (V : forall lo hi (v : bearingline.pyobj) e',
            point.validated lo hi v = Raise e' -> e' = TypeError \/ e' = ValueError).
  { intros lo hi v e'. unfold point.validated.
    destruct (as_number v) as [n|]; [|intros H; injection H as <-; auto].
    destruct (negb (point.between lo n hi)); [|discriminate].
    intros H; injection H as <-; auto. }
  unfold bearingline.__init__, bearingline.latitude_setter,
    bearingline.longitude_setter, bearingline.bearing_setter,
    bearingline.declination_setter.
  intros H.
  apply bind_Raise_inv in H as [H | (la & Hla & H)]; [exact (V _ _ _ _ H)|].
  apply bind_Raise_inv in H as [H | (lo & Hlo & H)]; [exact (V _ _ _ _ H)|].
  apply validated_Ok in Hla as [_ Bla], Hlo as [_ Blo].
  destruct (between_to_float (-90) 90 la ltac:(lia) ltac:(lia) Bla) as (fla & Ela).
  destruct (between_to_float (-180) 180 lo ltac:(lia) ltac:(lia) Blo) as (flo & Elo).
  unfold math_radians in H. rewrite Ela, Elo in H. cbn [bind] in H.
  apply bind_Raise_inv in H as [H | (b & Hb & H)]; [exact (V _ _ _ _ H)|].
  apply bind_Raise_inv in H as [H | (d & Hd & H)]; [exact (V _ _ _ _ H)|].
  apply validated_Ok in Hb as [_ Bb], Hd as [_ Bd].
  destruct (true_bearing_defined b d Bb Bd) as (tb & ftb & Eadd & Etb).
  rewrite Eadd in H. cbn [bind] in H. rewrite Etb in H. discriminate.
Qed.

Lemma line_init_errors_witness : ValueError = TypeError \/ ValueError = ValueError.
Proof.
  apply (line_init_errors (VNum (Int 0)) (VNum (Int 0)) (VNum (Int 361)) (VNum (Int 0))).
  vm_compute. reflexivity.
Defined.

(** ** Assigning to a field of an existing line *)

Section Stale.
Context {L : Libm}.
Import bearingline.




End Stale.


(** ** Distances *)

Section Distances.
Context {L : Libm}.
Import bearingline.

(** X8.  The two ways of calling [get_haversine_distance] agree: the
    distance to the coordinates of a constructed line is the distance to that
    line passed as [other]. *)
Theorem distance_conventions_agree (self other : BearingLine) :
  consistent other ->
  get_haversine_distance self (VNum (latitude other)) (VNum (longitude other)) VNone
  = get_haversine_distance self VNone VNone (VObj (ILine other)).
Proof.
  intros (Bla & Blo & _ & _ & Rla & Rlo & _).
  unfold get_haversine_distance, bind_points. cbn [is_None as_number andb negb
    as_BearingLine].
  rewrite Bla, Blo, Rla, Rlo. reflexivity.
Qed.

(** X9.  [geo_helpers.haversine_distance] between two points is the distance
    of [BearingLine.get_haversine_distance] between lines constructed at
    those points, rounded to 4 decimals. *)
Theorem haversine_distance_is_rounded (point_1 point_2 : point.Point)
  (line_1 line_2 : BearingLine) :
  consistent line_1 -> consistent line_2 ->
  latitude line_1 = point.latitude point_1 ->
  longitude line_1 = point.longitude point_1 ->
  latitude line_2 = point.latitude point_2 ->
  longitude line_2 = point.longitude point_2 ->
  geo_helpers.haversine_distance point_1 point_2
  = (d <- get_haversine_distance line_1 VNone VNone (VObj (ILine line_2)) ;;
     py_round d 4).
Proof.
  intros (_ & _ & _ & _ & Ra1 & Ro1 & _) (_ & _ & _ & _ & Ra2 & Ro2 & _) E1 E2 E3 E4.
  unfold geo_helpers.haversine_distance. rewrite <- E1, <- E2, <- E3, <- E4.
  rewrite Ra1, Ro1, Ra2, Ro2. cbn [bind].
  unfold get_haversine_distance, bind_points, distance_of.
  cbn [is_None as_number andb negb as_BearingLine bind].
  destruct (haversine_h _ _ _ _) as [h|]; cbn [bind]; [|reflexivity].
  destruct (to_float _) as [r|]; cbn [bind]; [|reflexivity].
  destruct (math_sqrt r) as [s|]; cbn [bind]; [|reflexivity].
  destruct (math_asin s) as [a|]; cbn [bind]; reflexivity.
Qed.

End Distances.

Lemma distance_conventions_agree_witness :
  bearingline.get_haversine_distance (L := RefLibm.libm) Examples.lineA
    (VNum (Int 0)) (VNum (Int 10)) VNone
  = bearingline.get_haversine_distance (L := RefLibm.libm) Examples.lineA
      VNone VNone (VObj (bearingline.ILine Examples.lineB)).
Proof.
  apply (distance_conventions_agree (L := RefLibm.libm) Examples.lineA Examples.lineB).
  repeat split; vm_compute; reflexivity.
Defined.

Lemma haversine_distance_is_rounded_witness :
  geo_helpers.haversine_distance (L := RefLibm.libm)
    (point.mkPoint (Int 0) (Int 0)) (point.mkPoint (Int 0) (Int 10))
  = (d <- bearingline.get_haversine_distance (L := RefLibm.libm) Examples.lineA
            VNone VNone (VObj (bearingline.ILine Examples.lineB)) ;;
     py_round d 4).
Proof.
  apply (haversine_distance_is_rounded (L := RefLibm.libm)
           (point.mkPoint (Int 0) (Int 0)) (point.mkPoint (Int 0) (Int 10))
           Examples.lineA Examples.lineB);
    try reflexivity; repeat split; vm_compute; reflexivity.
Defined.

(** ** The order of binary64 *)

Lemma SFcompare_rank (x y : spec_float) :
  SFcompare x y =
  match rank x, rank y with
  | Some a, Some b => Some (cmp3 a b)
  | _, _ => None
  end.
Proof.
  destruct x as [sx|sx| |sx mx ex], y as [sy|sy| |sy my ey];
    try (destruct sx); try (destruct sy); cbn [SFcompare rank cmp3]; try reflexivity.
  change (-1 ?= -1)%Z with Eq. cbv iota.
  rewrite Z.compare_opp, (Z.compare_antisym ex ey).
  destruct (ex ?= ey)%Z; cbn [CompOpp]; reflexivity.
Qed.

Lemma cmp3_refl (a : Z * Z * Z) : cmp3 a a = Eq.
Proof. destruct a as [[a1 a2] a3]. cbn. now rewrite !Z.compare_refl. Qed.

Lemma cmp3_antisym (a b : Z * Z * Z) : cmp3 b a = CompOpp (cmp3 a b).
Proof.
  destruct a as [[a1 a2] a3], b as [[b1 b2] b3]. cbn.
  rewrite (Z.compare_antisym a1 b1), (Z.compare_antisym a2 b2),
    (Z.compare_antisym a3 b3).
  destruct (a1 ?= b1)%Z, (a2 ?= b2)%Z, (a3 ?= b3)%Z; reflexivity.
Qed.

Lemma cmp3_le_trans (a b c : Z * Z * Z) :
  cmp3 a b <> Gt -> cmp3 b c <> Gt -> cmp3 a c <> Gt.
Proof.
  destruct a as [[a1 a2] a3], b as [[b1 b2] b3], c as [[c1 c2] c3]. cbn.
  destruct (Z.compare_spec a1 b1), (Z.compare_spec b1 c1), (Z.compare_spec a1 c1);
    try lia; try congruence;
    destruct (Z.compare_spec a2 b2), (Z.compare_spec b2 c2), (Z.compare_spec a2 c2);
    try lia; try congruence;
    destruct (Z.compare_spec a3 b3), (Z.compare_spec b3 c3), (Z.compare_spec a3 c3);
    try lia; congruence.
Qed.

Lemma float_nonnan_rank (x : float) :
  (x =? x)%float = true -> exists a, rank (Prim2SF x) = Some a.
Proof.
  rewrite eqb_spec. unfold SFeqb. rewrite SFcompare_rank.
  destruct (rank (Prim2SF x)) as [a|]; [eauto | discriminate].
Qed.

Lemma float_leb_nonnan (x y : float) :
  (x <=? y)%float = true -> (x =? x)%float = true /\ (y =? y)%float = true.
Proof.
  rewrite leb_spec, !eqb_spec. unfold SFleb, SFeqb. rewrite !SFcompare_rank.
  destruct (rank (Prim2SF x)) as [a|], (rank (Prim2SF y)) as [b|];
    try discriminate.
  now rewrite !cmp3_refl.
Qed.

Lemma float_leb_refl (x : float) : (x =? x)%float = true -> (x <=? x)%float = true.
Proof.
  intros H. destruct (float_nonnan_rank x H) as (a & Ha).
  rewrite leb_spec. unfold SFleb. rewrite SFcompare_rank, Ha, cmp3_refl. reflexivity.
Qed.

Lemma float_leb_trans (x y z : float) :
  (x <=? y)%float = true -> (y <=? z)%float = true -> (x <=? z)%float = true.
Proof.
  rewrite !leb_spec. unfold SFleb. rewrite !SFcompare_rank.
  destruct (rank (Prim2SF x)) as [a|], (rank (Prim2SF y)) as [b|],
    (rank (Prim2SF z)) as [c|]; try discriminate.
  intros H1 H2.
  assert (T := cmp3_le_trans a b c).
  destruct (cmp3 a b), (cmp3 b c), (cmp3 a c); try discriminate; try reflexivity;
    exfalso; apply T; congruence.
Qed.

(** On floats other than [nan], [x < y] fails exactly when [y <= x]. *)
Lemma float_leb_total (x y : float) :
  (x =? x)%float = true -> (y =? y)%float = true ->
  (x <? y)%float = false -> (y <=? x)%float = true.
Proof.
  intros Hx Hy.
  destruct (float_nonnan_rank x Hx) as (a & Ha).
  destruct (float_nonnan_rank y Hy) as (b & Hb).
  rewrite ltb_spec, leb_spec. unfold SFltb, SFleb.
  rewrite !SFcompare_rank, Ha, Hb, (cmp3_antisym a b).
  destruct (cmp3 a b); cbn; congruence.
Qed.

(** [x <= y] and [x != y] give [x < y]. *)
Lemma float_leb_neq_ltb (x y : float) :
  (x <=? y)%float = true -> (x =? y)%float = false -> (x <? y)%float = true.
Proof.
  rewrite leb_spec, eqb_spec, ltb_spec. unfold SFleb, SFeqb, SFltb.
  destruct (SFcompare (Prim2SF x) (Prim2SF y)) as [[]|]; congruence.
Qed.

(** ** Coordinates compare as their doubles *)

Lemma small_coordinates :
  forallb (fun x => small_int x && (Z2float x =? Z2float x)%float)
    (Zrange (-180) 361) = true.
Proof. vm_compute. reflexivity. Qed.

Lemma small_coordinate_pairs :
  forallb (fun x =>
    forallb (fun y =>
      Bool.eqb (x <? y)%Z (Z2float x <? Z2float y)%float &&
      Bool.eqb (x <=? y)%Z (Z2float x <=? Z2float y)%float &&
      Bool.eqb (x =? y)%Z (Z2float x =? Z2float y)%float)
      (Zrange (-180) 361))
    (Zrange (-180) 361) = true.
Proof. vm_compute. reflexivity. Qed.

Lemma small_coordinate (z : Z) :
  (-180 <= z <= 180)%Z ->
  small_int z = true /\ (Z2float z =? Z2float z)%float = true.
Proof.
  intros Hz. assert (H := small_coordinates). rewrite forallb_forall in H.
  specialize (H z (Zrange_In 361 (-180) z ltac:(lia))).
  now apply andb_prop in H.
Qed.

Lemma small_coordinate_pair (x y : Z) :
  (-180 <= x <= 180)%Z -> (-180 <= y <= 180)%Z ->
  (x <? y)%Z = (Z2float x <? Z2float y)%float /\
  (x <=? y)%Z = (Z2float x <=? Z2float y)%float /\
  (x =? y)%Z = (Z2float x =? Z2float y)%float.
Proof.
  intros Hx Hy. assert (H := small_coordinate_pairs). rewrite forallb_forall in H.
  specialize (H x (Zrange_In 361 (-180) x ltac:(lia))). rewrite forallb_forall in H.
  specialize (H y (Zrange_In 361 (-180) y ltac:(lia))).
  apply andb_prop in H as [H H3]. apply andb_prop in H as [H1 H2].
  apply Bool.eqb_prop in H1, H2, H3. auto.
Qed.

Lemma key_nonnan (a : num) : ordered a -> (key a =? key a)%float = true.
Proof.
  destruct a as [z|f]; cbn [ordered key]; intros H; [|exact H].
  now apply small_coordinate.
Qed.

Lemma num_cmp_key (a b : num) :
  ordered a -> ordered b ->
  num_ltb a b = (key a <? key b)%float /\
  num_leb a b = (key a <=? key b)%float /\
  num_eqb a b = (key a =? key b)%float.
Proof.
  destruct a as [x|x], b as [y|y]; cbn [ordered key num_ltb num_leb num_eqb];
    intros Ha Hb.
  - now apply small_coordinate_pair.
  - destruct (small_coordinate x Ha) as [-> _]. auto.
  - destruct (small_coordinate y Hb) as [-> _]. auto.
  - auto.
Qed.

Lemma between_ordered (lo hi : Z) (n : num) :
  (-180 <= lo)%Z -> (hi <= 180)%Z ->
  point.between lo n hi = true -> ordered n.
Proof.
  intros Hlo Hhi H. unfold point.between in H. apply andb_prop in H as [H1 H2].
  destruct n as [z|f]; cbn [ordered num_leb] in *.
  - apply Z.leb_le in H1, H2. lia.
  - destruct (small_int lo).
    + now apply float_leb_nonnan in H1.
    + unfold Zcompare_float in H1. rewrite eqb_spec. unfold SFeqb.
      destruct (Prim2SF f) as [s|s| |s m e] eqn:E; try discriminate;
        rewrite SFcompare_refl; try reflexivity; discriminate.
Qed.

Lemma num_leb_refl (a : num) : ordered a -> num_leb a a = true.
Proof.
  intros H. destruct (num_cmp_key a a H H) as (_ & -> & _).
  apply float_leb_refl. now apply key_nonnan.
Qed.

Lemma num_leb_trans (a b c : num) :
  ordered a -> ordered b -> ordered c ->
  num_leb a b = true -> num_leb b c = true -> num_leb a c = true.
Proof.
  intros Ha Hb Hc.
  destruct (num_cmp_key a b Ha Hb) as (_ & -> & _).
  destruct (num_cmp_key b c Hb Hc) as (_ & -> & _).
  destruct (num_cmp_key a c Ha Hc) as (_ & -> & _).
  apply float_leb_trans.
Qed.

Lemma num_ltb_leb (a b : num) :
  ordered a -> ordered b -> num_ltb a b = true -> num_leb a b = true.
Proof.
  intros Ha Hb. destruct (num_cmp_key a b Ha Hb) as (-> & -> & _).
  apply float_ltb_leb.
Qed.

Lemma num_leb_total (a b : num) :
  ordered a -> ordered b -> num_ltb a b = false -> num_leb b a = true.
Proof.
  intros Ha Hb. destruct (num_cmp_key a b Ha Hb) as (-> & _ & _).
  destruct (num_cmp_key b a Hb Ha) as (_ & -> & _).
  apply float_leb_total; now apply key_nonnan.
Qed.

Lemma num_leb_neq_ltb (a b : num) :
  ordered a -> ordered b ->
  num_leb a b = true -> num_eqb a b = false -> num_ltb a b = true.
Proof.
  intros Ha Hb. destruct (num_cmp_key a b Ha Hb) as (-> & -> & ->).
  apply float_leb_neq_ltb.
Qed.

(** ** [min] and [max] over coordinates, and the bounding box *)

Lemma min_from_spec (l : list num) : forall cur,
  ordered cur -> Forall ordered l ->
  In (min_from cur l) (cur :: l) /\
  forall x, In x (cur :: l) -> num_leb (min_from cur l) x = true.
Proof.
  induction l as [|y t IH]; intros cur Hc Hl; cbn [min_from].
  - split; [now left|]. intros x [<- | []]. now apply num_leb_refl.
  - inversion Hl as [|? ? Hy Ht]; subst.
    set (cur' := if num_ltb y cur then y else cur).
    assert (Hc' : ordered cur') by (unfold cur'; now destruct (num_ltb y cur)).
    destruct (IH cur' Hc' Ht) as [Hin Hle].
    assert (Hr : ordered (min_from cur' t)).
    { destruct Hin as [<- | Hin]; [exact Hc'|].
      rewrite Forall_forall in Ht. now apply Ht. }
    assert (L1 : num_leb cur' cur = true).
    { unfold cur'. destruct (num_ltb y cur) eqn:E;
        [now apply num_ltb_leb | now apply num_leb_refl]. }
    assert (L2 : num_leb cur' y = true).
    { unfold cur'. destruct (num_ltb y cur) eqn:E;
        [now apply num_leb_refl | now apply num_leb_total]. }
    split.
    + destruct Hin as [Hin | Hin]; [|right; now right].
      rewrite <- Hin. unfold cur'. destruct (num_ltb y cur); [right; now left | now left].
    + intros x [<- | [<- | Hx]].
      * apply (num_leb_trans _ cur'); auto. apply Hle. now left.
      * apply (num_leb_trans _ cur'); auto. apply Hle. now left.
      * apply Hle. now right.
Qed.

Lemma max_from_spec (l : list num) : forall cur,
  ordered cur -> Forall ordered l ->
  In (max_from cur l) (cur :: l) /\
  forall x, In x (cur :: l) -> num_leb x (max_from cur l) = true.
Proof.
  induction l as [|y t IH]; intros cur Hc Hl; cbn [max_from].
  - split; [now left|]. intros x [<- | []]. now apply num_leb_refl.
  - inversion Hl as [|? ? Hy Ht]; subst. unfold num_gtb.
    set (cur' := if num_ltb cur y then y else cur).
    assert (Hc' : ordered cur') by (unfold cur'; now destruct (num_ltb cur y)).
    destruct (IH cur' Hc' Ht) as [Hin Hle].
    assert (Hr : ordered (max_from cur' t)).
    { destruct Hin as [<- | Hin]; [exact Hc'|].
      rewrite Forall_forall in Ht. now apply Ht. }
    assert (L1 : num_leb cur cur' = true).
    { unfold cur'. destruct (num_ltb cur y) eqn:E;
        [now apply num_ltb_leb | now apply num_leb_refl]. }
    assert (L2 : num_leb y cur' = true).
    { unfold cur'. destruct (num_ltb cur y) eqn:E;
        [now apply num_leb_refl | now apply num_leb_total]. }
    split.
    + destruct Hin as [Hin | Hin]; [|right; now right].
      rewrite <- Hin. unfold cur'. destruct (num_ltb cur y); [right; now left | now left].
    + intros x [<- | [<- | Hx]].
      * apply (num_leb_trans _ cur'); auto. apply Hle. now left.
      * apply (num_leb_trans _ cur'); auto. apply Hle. now left.
      * apply Hle. now right.
Qed.

Lemma all_Points_Some (l : list bearingline.pyobj) (ps : list point.Point) :
  geo_helpers.all_Points l = Some ps ->
  l = map (fun p => VObj (bearingline.IPoint p)) ps.
Proof.
  revert ps. induction l as [|v r IH]; intros ps; cbn [geo_helpers.all_Points].
  - intros H; injection H as <-. reflexivity.
  - destruct v as [| | |[p|b]]; cbn [geo_helpers.as_Point]; try discriminate.
    destruct (geo_helpers.all_Points r) as [qs|]; [|discriminate].
    intros H; injection H as <-. cbn. now rewrite (IH qs eq_refl).
Qed.

Lemma all_Points_None (l : list bearingline.pyobj) :
  geo_helpers.all_Points l = None <->
  exists v, In v l /\ geo_helpers.as_Point v = None.
Proof.
  induction l as [|v r IH]; cbn [geo_helpers.all_Points].
  - split; [discriminate | intros (v & [] & _)].
  - destruct (geo_helpers.as_Point v) as [p|] eqn:E.
    + destruct (geo_helpers.all_Points r) as [qs|].
      * split; [discriminate|]. intros (w & [<- | Hw] & Hn); [congruence|].
        destruct IH as [_ IH']. specialize (IH' (ex_intro _ w (conj Hw Hn))).
        discriminate.
      * split; [|reflexivity]. intros _. destruct IH as [IH _].
        destruct (IH eq_refl) as (w & Hw & Hn). exists w. split; [now right | exact Hn].
    + split; [|reflexivity]. intros _. exists v. split; [now left | exact E].
Qed.

Lemma valid_point_ordered (p : point.Point) :
  valid_point p -> ordered (point.latitude p) /\ ordered (point.longitude p).
Proof.
  intros [H1 H2]. split.
  - apply (between_ordered (-90) 90); [lia | lia | exact H1].
  - apply (between_ordered (-180) 180); [lia | lia | exact H2].
Qed.

(** The four corners when the list holds at least one point. *)
Lemma bounding_box_corners (ps : list point.Point)
  (min_lon max_lon min_lat max_lat : num) :
  geo_helpers.bounding_box (map (fun p => VObj (bearingline.IPoint p)) ps)
  = Ok (min_lon, max_lon, min_lat, max_lat) ->
  exists p t, ps = p :: t /\
    min_lon = min_from (point.longitude p) (map point.longitude t) /\
    max_lon = max_from (point.longitude p) (map point.longitude t) /\
    min_lat = min_from (point.latitude p) (map point.latitude t) /\
    max_lat = max_from (point.latitude p) (map point.latitude t) /\
    num_eqb min_lon max_lon = false /\ num_eqb min_lat max_lat = false.
Proof.
  unfold geo_helpers.bounding_box.
  assert (A : geo_helpers.all_Points (map (fun p => VObj (bearingline.IPoint p)) ps)
              = Some ps).
  { induction ps as [|p t IH]; cbn; [reflexivity | now rewrite IH]. }
  rewrite A. destruct ps as [|p t]; cbn [map py_min py_max bind]; [discriminate|].
  destruct (num_eqb _ _) eqn:E1; cbn [orb]; [discriminate|].
  destruct (num_eqb (min_from (point.latitude p) _) _) eqn:E2; [discriminate|].
  intros H; injection H as <- <- <- <-. exists p, t. repeat split; assumption.
Qed.

(** X10.  A box returned for validated points encloses every point of the
    list, each of its four bounds is the coordinate of some point of the
    list, and it has a positive extent in both directions. *)
Theorem bounding_box_encloses (point_list : list bearingline.pyobj)
  (min_lon max_lon min_lat max_lat : num) :
  (forall p, In (VObj (bearingline.IPoint p)) point_list -> valid_point p) ->
  geo_helpers.bounding_box point_list = Ok (min_lon, max_lon, min_lat, max_lat) ->
  (forall v, In v point_list ->
     exists p, v = VObj (bearingline.IPoint p) /\
       num_leb min_lon (point.longitude p) = true /\
       num_leb (point.longitude p) max_lon = true /\
       num_leb min_lat (point.latitude p) = true /\
       num_leb (point.latitude p) max_lat = true)
  /\
  (exists p1 p2 p3 p4,
     In (VObj (bearingline.IPoint p1)) point_list /\ point.longitude p1 = min_lon /\
     In (VObj (bearingline.IPoint p2)) point_list /\ point.longitude p2 = max_lon /\
     In (VObj (bearingline.IPoint p3)) point_list /\ point.latitude p3 = min_lat /\
     In (VObj (bearingline.IPoint p4)) point_list /\ point.latitude p4 = max_lat)
  /\
  num_ltb min_lon max_lon = true /\ num_ltb min_lat max_lat = true.
Proof.
  intros Hv H.
  assert (A : exists ps, point_list = map (fun p => VObj (bearingline.IPoint p)) ps).
  { unfold geo_helpers.bounding_box in H.
    destruct (geo_helpers.all_Points point_list) as [ps|] eqn:E; [|discriminate].
    exists ps. now apply all_Points_Some. }
  destruct A as (ps & ->).
  destruct (bounding_box_corners ps _ _ _ _ H)
    as (p & t & -> & Emin_lon & Emax_lon & Emin_lat & Emax_lat & N1 & N2).
  assert (V : Forall valid_point (p :: t)).
  { apply Forall_forall. intros q Hq. apply Hv. apply in_map_iff. eauto. }
  assert (Olon : Forall ordered (map point.longitude (p :: t))).
  { apply Forall_map. revert V. apply Forall_impl. intros q Hq.
    now apply valid_point_ordered. }
  assert (Olat : Forall ordered (map point.latitude (p :: t))).
  { apply Forall_map. revert V. apply Forall_impl. intros q Hq.
    now apply valid_point_ordered. }
  cbn [map] in Olon, Olat.
  inversion Olon as [|? ? Olon1 Olon2]; subst.
  inversion Olat as [|? ? Olat1 Olat2]; subst.
  destruct (min_from_spec _ _ Olon1 Olon2) as [I1 B1].
  destruct (max_from_spec _ _ Olon1 Olon2) as [I2 B2].
  destruct (min_from_spec _ _ Olat1 Olat2) as [I3 B3].
  destruct (max_from_spec _ _ Olat1 Olat2) as [I4 B4].
  assert (Mlon : forall x, In x (point.longitude p :: map point.longitude t) ->
                   exists q, In q (p :: t) /\ point.longitude q = x).
  { intros x Hx. change (In x (map point.longitude (p :: t))) in Hx.
    apply in_map_iff in Hx as (q & <- & Hq). eauto. }
  assert (Mlat : forall x, In x (point.latitude p :: map point.latitude t) ->
                   exists q, In q (p :: t) /\ point.latitude q = x).
  { intros x Hx. change (In x (map point.latitude (p :: t))) in Hx.
    apply in_map_iff in Hx as (q & <- & Hq). eauto. }
  assert (Inj : forall q, In q (p :: t) ->
                  In (VObj (bearingline.IPoint q))
                    (map (fun p => VObj (bearingline.IPoint p)) (p :: t))).
  { intros q Hq. apply in_map_iff. eauto. }
  split; [|split].
  - intros v Hin. apply in_map_iff in Hin as (q & <- & Hq). exists q.
    split; [reflexivity|].
    assert (Qlon : In (point.longitude q) (point.longitude p :: map point.longitude t))
      by (change (In (point.longitude q) (map point.longitude (p :: t)));
          now apply in_map).
    assert (Qlat : In (point.latitude q) (point.latitude p :: map point.latitude t))
      by (change (In (point.latitude q) (map point.latitude (p :: t)));
          now apply in_map).
    repeat split; auto.
  - destruct (Mlon _ I1) as (p1 & H1 & E1). destruct (Mlon _ I2) as (p2 & H2 & E2).
    destruct (Mlat _ I3) as (p3 & H3 & E3). destruct (Mlat _ I4) as (p4 & H4 & E4).
    exists p1, p2, p3, p4. repeat split; auto.
  - assert (O : forall x l, In x l -> Forall ordered l -> ordered x).
    { intros x l Hx Hl. rewrite Forall_forall in Hl. auto. }
    split; apply num_leb_neq_ltb; auto.
    + apply (O _ _ I1). now constructor.
    + apply (O _ _ I2). now constructor.
    + apply (O _ _ I3). now constructor.
    + apply (O _ _ I4). now constructor.
Qed.

Lemma bounding_box_encloses_witness :
  num_ltb (Int 0) (Int 2) = true /\ num_ltb (Int 0) (Int 1) = true.
Proof.
  apply (bounding_box_encloses example_points (Int 0) (Int 2) (Int 0) (Int 1)).
  - intros p [H | [H | []]]; injection H as <-; split; reflexivity.
  - reflexivity.
Defined.

(** X11.  [bounding_box] raises [TypeError] exactly when some item of the
    list is not a [Point]; the check runs over the whole list before any
    coordinate is read. *)
Theorem bounding_box_TypeError (point_list : list bearingline.pyobj) :
  geo_helpers.bounding_box point_list = Raise TypeError <->
  exists v, In v point_list /\ geo_helpers.as_Point v = None.
Proof.
  rewrite <- all_Points_None. unfold geo_helpers.bounding_box.
  destruct (geo_helpers.all_Points point_list) as [ps|]; [|tauto].
  split; [|discriminate]. intros H. exfalso.
  destruct ps as [|p t]; cbn [map py_min py_max bind] in H; [discriminate|].
  destruct (_ || _); discriminate.
Qed.

Lemma min_from_constant (v : num) (l : list num) :
  Forall (eq v) l -> min_from v l = v /\ max_from v l = v.
Proof.
  induction 1 as [|x t <- _ [IH1 IH2]]; cbn [min_from max_from]; [auto|].
  unfold num_gtb. destruct (num_ltb v v); auto.
Qed.

(** X12.  On validated points that all share one latitude, or all share one
    longitude, a single point included, [bounding_box] raises
    [AmbiguousBoxError]. *)
Theorem bounding_box_degenerate (ps : list point.Point) :
  ps <> [] ->
  Forall valid_point ps ->
  (exists v, Forall (fun p => point.latitude p = v) ps) \/
  (exists v, Forall (fun p => point.longitude p = v) ps) ->
  geo_helpers.bounding_box (map (fun p => VObj (bearingline.IPoint p)) ps)
  = Raise AmbiguousBoxError.
Proof.
  intros Hne V H. unfold geo_helpers.bounding_box.
  assert (A : geo_helpers.all_Points (map (fun p => VObj (bearingline.IPoint p)) ps)
              = Some ps).
  { clear. induction ps as [|p t IH]; cbn; [reflexivity | now rewrite IH]. }
  rewrite A. destruct ps as [|p t]; [congruence|]. cbn [map py_min py_max bind].
  inversion V as [|? ? Vp Vt]; subst.
  destruct (valid_point_ordered p Vp) as [Olat Olon].
  assert (R : forall v, ordered v -> num_eqb v v = true).
  { intros v Ov. destruct (num_cmp_key v v Ov Ov) as (_ & _ & ->).
    now apply key_nonnan. }
  destruct H as [(v & Hv) | (v & Hv)]; inversion Hv as [|? ? Hp Ht]; subst.
  - assert (C : Forall (eq (point.latitude p)) (map point.latitude t)).
    { apply Forall_map. revert Ht. apply Forall_impl. intros q Hq. now symmetry. }
    destruct (min_from_constant _ _ C) as [-> ->].
    rewrite (R _ Olat). now rewrite orb_true_r.
  - assert (C : Forall (eq (point.longitude p)) (map point.longitude t)).
    { apply Forall_map. revert Ht. apply Forall_impl. intros q Hq. now symmetry. }
    destruct (min_from_constant _ _ C) as [-> ->].
    now rewrite (R _ Olon).
Qed.

Lemma bounding_box_degenerate_witness :
  geo_helpers.bounding_box
    (map (fun p => VObj (bearingline.IPoint p))
       [point.mkPoint (Int 5) (Int 0); point.mkPoint (Int 5) (Int 10)])
  = Raise AmbiguousBoxError.
Proof.
  apply (bounding_box_degenerate
           [point.mkPoint (Int 5) (Int 0); point.mkPoint (Int 5) (Int 10)]).
  - discriminate.
  - repeat constructor.
  - left. exists (Int 5). repeat constructor.
Defined.

(** ** [euclidean_modulo]: zero divisor, integer results *)

(** X13.  A zero divisor, integer or float of either sign, makes
    [euclidean_modulo] raise [ZeroDivisionError] (for every dividend that has
    a float value). *)
Theorem euclidean_modulo_zero_divisor (y x : num) (fy : float) :
  truthy x = false -> to_float y = Ok fy ->
  _safe_math.euclidean_modulo y x = Raise ZeroDivisionError.
Proof.
  intros Hx Hy. unfold _safe_math.euclidean_modulo, num_truediv.
  destruct x as [zx|fx]; cbn [truthy] in Hx; apply negb_false_iff in Hx.
  - apply Z.eqb_eq in Hx. subst zx. destruct y as [zy|f].
    + reflexivity.
    + cbn [to_float bind]. change (int_to_float 0) with (Ok 0%float). reflexivity.
  - destruct y as [zy|f].
    + rewrite Hy. cbn [to_float bind]. unfold float_truediv. now rewrite Hx.
    + cbn [to_float bind]. unfold float_truediv. now rewrite Hx.
Qed.

Lemma euclidean_modulo_zero_divisor_witness :
  _safe_math.euclidean_modulo (Int 7) (Flt (-0)) = Raise ZeroDivisionError.
Proof.
  apply (euclidean_modulo_zero_divisor (Int 7) (Flt (-0)) 7); reflexivity.
Defined.

(** X14.  On two integers the result of [euclidean_modulo] is an integer that
    differs from the dividend by a multiple of the divisor, however the
    double quotient was rounded. *)
Theorem euclidean_modulo_congruent (y x : Z) (r : num) :
  _safe_math.euclidean_modulo (Int y) (Int x) = Ok r ->
  exists z, r = Int z /\ (x | y - z)%Z.
Proof.
  unfold _safe_math.euclidean_modulo. intros H.
  apply bind_Ok_inv in H as (q & _ & H).
  apply bind_Ok_inv in H as (n & _ & H).
  cbn in H. injection H as <-.
  exists (y - x * n)%Z. split; [reflexivity|].
  exists n. lia.
Qed.

Lemma euclidean_modulo_congruent_witness :
  exists z, Int 1 = Int z /\ (1 | 2 ^ 53 + 1 - z)%Z.
Proof.
  apply (euclidean_modulo_congruent (2 ^ 53 + 1) 1 (Int 1)).
  vm_compute. reflexivity.
Defined.

(** ** More on the raw solver and the policy layer *)

Section More.
Context {L : Libm}.
Import bearingline.

(** X15.  The raw solver raises built-in exceptions and its own three, the
    latter only without suppression: it never raises
    [ProbableDivergenceError] or [AmbiguousBoxError]. *)
Theorem intersect_errors (self other : BearingLine) (suppress_errors : bool) (e : exn) :
  _intersect self other suppress_errors = Raise e ->
  builtin e = true \/ (suppress_errors = false /\ degenerate e = true).
Proof.
  intros E. destruct (same_origin self other) eqn:H.
  - rewrite (intersect_same_origin _ _ _ H) in E.
    destruct suppress_errors; [discriminate|]. injection E as <-. auto.
  - destruct (intersect_distinct_Raise _ _ _ _ H E) as [B | (S & [-> | ->])]; auto.
Qed.

(** X16.  In the probable-divergence case (an intersection within the cap,
    both origins more than 10000 km from it and less than 10000 km apart),
    suppression returns [None] whatever the warning flag is, the warning
    alone raises [ProbableDivergenceError], and a non-zero cap alone returns
    the [Point]. *)
Theorem divergence_flags (self other : BearingLine) (warn : bool)
  (suppress_greater_than : option num) (n : num) (ignore_errors : bool)
  (lat lon d1 d2 d12 : float) :
  _intersect self other ignore_errors = Ok (Some (lat, lon)) ->
  get_haversine_distance self (VNum (Flt lat)) (VNum (Flt lon)) VNone = Ok d1 ->
  get_haversine_distance other (VNum (Flt lat)) (VNum (Flt lon)) VNone = Ok d2 ->
  get_haversine_distance self VNone VNone (VObj (ILine other)) = Ok d12 ->
  probably_diverge d1 d2 d12 = true ->
  (exceeds (max2 (Flt d1) (Flt d2)) suppress_greater_than = false ->
   get_intersect self other warn true suppress_greater_than ignore_errors = Ok RNone /\
   get_intersect self other true false suppress_greater_than ignore_errors
   = Raise ProbableDivergenceError)
  /\
  (truthy n = true -> num_gtb (max2 (Flt d1) (Flt d2)) n = false ->
   get_intersect self other false false (Some n) ignore_errors = as_Point lat lon).
Proof.
  intros Hi H1 H2 H12 Hd. split.
  - intros Hx. split.
    + now rewrite (probable_divergence_policy self other warn true suppress_greater_than
                     _ _ _ _ _ _ Hi H1 H2 H12 Hx Hd).
    + now rewrite (probable_divergence_policy self other true false suppress_greater_than
                     _ _ _ _ _ _ Hi H1 H2 H12 Hx Hd).
  - intros Hn Hx.
    rewrite (probable_divergence_policy self other false false (Some n)
               _ _ _ _ _ _ Hi H1 H2 H12 Hx Hd).
    cbn [any_policy orb]. now rewrite Hn.
Qed.

End More.

Lemma intersect_errors_witness :
  builtin IdenticalInputPointError = true \/
  (false = false /\ degenerate IdenticalInputPointError = true).
Proof.
  apply (intersect_errors (L := RefLibm.libm) Examples.lineA Examples.lineC false).
  vm_compute. reflexivity.
Defined.

Lemma divergence_flags_witness :
  bearingline.get_intersect (L := RefLibm.libm) Examples.lineS Examples.lineT
    false true None false = Ok bearingline.RNone.
Proof.
  with_value
    (bearingline.get_haversine_distance (L := RefLibm.libm) Examples.lineS
       (VNum (Flt 90)) (VNum (Flt 180)) VNone)
    ltac:(fun d1 =>
  with_value
    (bearingline.get_haversine_distance (L := RefLibm.libm) Examples.lineT
       (VNum (Flt 90)) (VNum (Flt 180)) VNone)
    ltac:(fun d2 =>
  with_value
    (bearingline.get_haversine_distance (L := RefLibm.libm) Examples.lineS
       VNone VNone (VObj (bearingline.ILine Examples.lineT)))
    ltac:(fun d12 =>
      destruct (divergence_flags (L := RefLibm.libm) Examples.lineS Examples.lineT
                  false None (Int 1) false 90 180 d1 d2 d12) as [H _])));
    [vm_compute; reflexivity .. | exact (proj1 (H eq_refl))].
Defined.

Lemma cap_exceeded_witness :
  bearingline.get_intersect (L := RefLibm.libm) Examples.lineA Examples.lineB
    true false (Some (Int 100)) false = Ok bearingline.RNone.
Proof.
  with_value
    (bearingline.get_haversine_distance (L := RefLibm.libm) Examples.lineA
       (VNum (Flt 0x1.3ec9d9d3458cdp+2)) (VNum (Flt 5)) VNone)
    ltac:(fun d1 =>
  with_value
    (bearingline.get_haversine_distance (L := RefLibm.libm) Examples.lineB
       (VNum (Flt 0x1.3ec9d9d3458cdp+2)) (VNum (Flt 5)) VNone)
    ltac:(fun d2 =>
  with_value
    (bearingline.get_haversine_distance (L := RefLibm.libm) Examples.lineA
       VNone VNone (VObj (bearingline.ILine Examples.lineB)))
    ltac:(fun d12 =>
      apply (cap_exceeded (L := RefLibm.libm) Examples.lineA Examples.lineB
               true false (Int 100) false 0x1.3ec9d9d3458cdp+2 5 d1 d2 d12))));
    vm_compute; reflexivity.
Defined.

Lemma active_flags_return_Point_witness :
  bearingline.RPoint (point.mkPoint (Flt 0x1.3ec9d9d3458cdp+2) (Flt 5))
  = bearingline.RNone \/
  exists lat lon,
    bearingline._intersect (L := RefLibm.libm) Examples.lineA Examples.lineB false
    = Ok (Some (lat, lon)) /\
    bearingline.RPoint (point.mkPoint (Flt 0x1.3ec9d9d3458cdp+2) (Flt 5))
    = bearingline.RPoint (point.mkPoint (Flt lat) (Flt lon)).
Proof.
  apply (active_flags_return_Point (L := RefLibm.libm) Examples.lineA Examples.lineB
           true false (Some (Int 1000)) false);
    vm_compute; reflexivity.
Defined.

Lemma divergence_error_only_when_witness :
  true = true /\ false = false /\
  exists lat lon d1 d2 d12,
    bearingline._intersect (L := RefLibm.libm) Examples.lineS Examples.lineT false
    = Ok (Some (lat, lon)) /\
    bearingline.get_haversine_distance (L := RefLibm.libm) Examples.lineS
      (VNum (Flt lat)) (VNum (Flt lon)) VNone = Ok d1 /\
    bearingline.get_haversine_distance (L := RefLibm.libm) Examples.lineT
      (VNum (Flt lat)) (VNum (Flt lon)) VNone = Ok d2 /\
    bearingline.get_haversine_distance (L := RefLibm.libm) Examples.lineS
      VNone VNone (VObj (bearingline.ILine Examples.lineT)) = Ok d12 /\
    bearingline.exceeds (max2 (Flt d1) (Flt d2)) None = false /\
    bearingline.probably_diverge d1 d2 d12 = true.
Proof.
  apply (divergence_error_only_when (L := RefLibm.libm) Examples.lineS Examples.lineT
           true false None false).
  vm_compute. reflexivity.
Defined.
